(** * hurst_hockey: the roster scrapers, the CSV coercer and the loader

    A shallow embedding of [scrape_bios_playwright.py],
    [scrape_bios_requests.py], [db_loader.py], [models.py] and [init.py],
    followed by the properties of the specification that were settled on it.

    Text.  A Python [str] is modelled by [string]; a character is read as
    the code point of its byte (U+0000 .. U+00FF), which is enough to hold
    the non-breaking space U+00A0 the scrapers replace. *)

From Stdlib Require Import ZArith Ascii Bool Lia.
From stdpp Require Import base option list gmap strings pretty.

(** ** Python's built-in text operations *)

Module Py.

(** [str.isspace] on one character: the code points below 256 for which
    CPython's [Py_UNICODE_ISSPACE] holds.  [str.split()] and [str.strip()]
    use this test, so the non-breaking space (160) is white space. *)
Definition is_space (c : ascii) : bool :=
  let n := nat_of_ascii c in
  (((9 <=? n) && (n <=? 13)) || ((28 <=? n) && (n <=? 32))
   || (n =? 133) || (n =? 160))%nat.

Definition nbsp : ascii := ascii_of_nat 160.
Definition space : ascii := " "%char.

(** [s.lstrip()] *)
Fixpoint lstrip (s : string) : string :=
  match s with
  | String c s' => if is_space c then lstrip s' else s
  | EmptyString => EmptyString
  end.

(** [s.rstrip()] *)
Fixpoint rstrip (s : string) : string :=
  match s with
  | EmptyString => EmptyString
  | String c s' =>
      match rstrip s' with
      | EmptyString => if is_space c then EmptyString else String c EmptyString
      | t => String c t
      end
  end.

(** [s.strip()] *)
Definition strip (s : string) : string := rstrip (lstrip s).

(** [s.lstrip(chars)] and [s.rstrip(chars)], for the characters [f] accepts. *)
Fixpoint lstrip_with (f : ascii -> bool) (s : string) : string :=
  match s with
  | String c s' => if f c then lstrip_with f s' else s
  | EmptyString => EmptyString
  end.

Fixpoint rstrip_with (f : ascii -> bool) (s : string) : string :=
  match s with
  | EmptyString => EmptyString
  | String c s' =>
      match rstrip_with f s' with
      | EmptyString => if f c then EmptyString else String c EmptyString
      | t => String c t
      end
  end.

(** [s.rstrip(":")]: every trailing colon goes. *)
Definition rstrip_colon (s : string) : string :=
  rstrip_with (fun c => Ascii.eqb c ":"%char) s.

(** [s.replace("\xa0", " ")] *)
Fixpoint replace_nbsp (s : string) : string :=
  match s with
  | EmptyString => EmptyString
  | String c s' => String (if Ascii.eqb c nbsp then space else c) (replace_nbsp s')
  end.

Definition cons_word (w : string) (ws : list string) : list string :=
  match w with EmptyString => ws | _ => w :: ws end.

(** The scan behind [s.split()]: the word that starts at the head of [s]
    (empty when [s] starts with white space) and the words after it. *)
Fixpoint words_from (s : string) : string * list string :=
  match s with
  | EmptyString => (EmptyString, [])
  | String c s' =>
      let '(w, ws) := words_from s' in
      if is_space c then (EmptyString, cons_word w ws) else (String c w, ws)
  end.

(** [s.split()]: the maximal runs of characters that are not white space. *)
Definition split (s : string) : list string :=
  let '(w, ws) := words_from s in cons_word w ws.

(** [sep.join(parts)] *)
Fixpoint join (sep : string) (parts : list string) : string :=
  match parts with
  | [] => EmptyString
  | [p] => p
  | p :: ps => p +:+ sep +:+ join sep ps
  end.

(** [s.startswith(p)] *)
Fixpoint startswith (s p : string) {struct p} : bool :=
  match p, s with
  | EmptyString, _ => true
  | String a p', String b s' => Ascii.eqb a b && startswith s' p'
  | String _ _, EmptyString => false
  end.

(** [needle in s] *)
Fixpoint contains (s needle : string) : bool :=
  startswith s needle ||
  match s with
  | EmptyString => false
  | String _ s' => contains s' needle
  end.

(** [str.lower] on one character: A-Z, and the capital letters of the
    Latin-1 supplement (192 .. 222 but the multiplication sign 215). *)
Definition lower_char (c : ascii) : ascii :=
  let n := nat_of_ascii c in
  if (((65 <=? n) && (n <=? 90))
      || ((192 <=? n) && (n <=? 222) && negb (n =? 215)))%nat
  then ascii_of_nat (n + 32) else c.

Fixpoint lower (s : string) : string :=
  match s with
  | EmptyString => EmptyString
  | String c s' => String (lower_char c) (lower s')
  end.

(** Exceptions the modelled code can meet. *)
Inductive Exception :=
| ValueError | TypeError | AttributeError | IntegrityError | OverflowError.

Inductive result (A : Type) :=
| Ok (a : A)
| Raise (e : Exception).
Arguments Ok {A} a.
Arguments Raise {A} e.

Definition bind {A B} (r : result A) (k : A -> result B) : result B :=
  match r with Ok a => k a | Raise e => Raise e end.

Definition digit (c : ascii) : option Z :=
  let n := nat_of_ascii c in
  if ((48 <=? n) && (n <=? 57))%nat then Some (Z.of_nat (n - 48)) else None.

(** The digits of a decimal literal after its first one: a single
    underscore may stand between two digits. *)
Fixpoint digits_from (s : string) (acc : Z) : option Z :=
  match s with
  | EmptyString => Some acc
  | String c s' =>
      match digit c with
      | Some d => digits_from s' (10 * acc + d)
      | None =>
          if Ascii.eqb c "_"%char then
            match s' with
            | String c' s'' =>
                match digit c' with
                | Some d => digits_from s'' (10 * acc + d)
                | None => None
                end
            | EmptyString => None
            end
          else None
      end
  end.

Definition unsigned_literal (s : string) : option Z :=
  match s with
  | String c s' =>
      match digit c with
      | Some d => digits_from s' d
      | None => None
      end
  | EmptyString => None
  end.

(** The white space [int] skips around a literal: the six ASCII
    characters of C's [isspace], and the white space above 127.  (Unlike
    [str.strip], it keeps the separators 28 .. 31.) *)
Definition is_int_space (c : ascii) : bool :=
  let n := nat_of_ascii c in
  (((9 <=? n) && (n <=? 13)) || (n =? 32) || (n =? 133) || (n =? 160))%nat.

(** The number of digits in a text (underscores and signs do not count). *)
Fixpoint count_digits (s : string) : Z :=
  match s with
  | EmptyString => 0
  | String c s' =>
      match digit c with
      | Some _ => 1 + count_digits s'
      | None => count_digits s'
      end
  end.

(** [sys.int_info.default_max_str_digits] *)
Definition max_str_digits : Z := 4300.

(** [int(s)] for a [str]: surrounding white space is dropped, then an
    optional sign and a decimal literal must make up the whole text.  A
    literal of more digits than [max_str_digits] is refused with
    [ValueError], as the interpreter does by default (since 3.11, and in
    the security releases of 3.7 to 3.10). *)
Definition int_of_str (s : string) : result Z :=
  let t := rstrip_with is_int_space (lstrip_with is_int_space s) in
  let '(neg, body) :=
    match t with
    | String c r =>
        if Ascii.eqb c "-"%char then (true, r)
        else if Ascii.eqb c "+"%char then (false, r)
        else (false, t)
    | EmptyString => (false, t)
    end in
  match unsigned_literal body with
  | Some z =>
      if (max_str_digits <? count_digits body)%Z then Raise ValueError
      else Ok (if neg then (- z)%Z else z)
  | None => Raise ValueError
  end.

(** [int(v)] for what a cell of a [csv.DictReader] row can hold under a
    header name: a [str], or [None] (which [int] rejects with [TypeError]). *)
Definition int (v : option string) : result Z :=
  match v with
  | Some s => int_of_str s
  | None => Raise TypeError
  end.

End Py.

(** ** [csv.DictReader]

    A CSV file is taken as [csv.reader] splits it: a list of lines, each a
    list of cells, the first line being the header. *)

Module Csv.

(** One entry of the [dict] that [DictReader] yields for a line: a header
    name with its cell ([None], the reader's [restval], when the line is
    shorter than the header), or the reader's [restkey] entry
    [{None: [v, ...]}], which holds the cells of a line beyond the header's
    length and so is never empty. *)
Inductive item :=
| Field (key : string) (val : option string)
| Rest (v : string) (vs : list string).

(** The [dict] in insertion order, the order [row.items()] follows. *)
Definition Row := list item.

Definition key_of (it : item) : option string :=
  match it with
  | Field k _ => Some k
  | Rest _ _ => None
  end.

Definition keys (row : Row) : list (option string) := key_of <$> row.

(** [d[key] = val]: a key keeps the place of its first insertion. *)
Fixpoint dict_set (key : string) (val : option string)
    (d : list (string * option string)) : list (string * option string) :=
  match d with
  | [] => [(key, val)]
  | (k, v) :: d' =>
      if decide (key = k) then (key, val) :: d' else (k, v) :: dict_set key val d'
  end.

(** [dict(zip(fieldnames, row))], continued from [d]. *)
Fixpoint zip_fields (fieldnames line : list string)
    (d : list (string * option string)) : list (string * option string) :=
  match fieldnames, line with
  | f :: fs, c :: cs => zip_fields fs cs (dict_set f (Some c) d)
  | _, _ => d
  end.

(** [DictReader.__next__] on a line that is not blank. *)
Definition next_row (fieldnames line : list string) : Row :=
  let d := zip_fields fieldnames line [] in
  let lf := length fieldnames in
  let lr := length line in
  if (lf <? lr)%nat then
    (uncurry Field <$> d) ++
    match drop lf line with
    | v :: vs => [Rest v vs]
    | [] => []
    end
  else
    uncurry Field <$> fold_left (fun d key => dict_set key None d) (drop lr fieldnames) d.

(** Iterating [csv.DictReader(fh)]: the first line names the fields and
    blank lines are skipped. *)
Definition DictReader (file : list (list string)) : list Row :=
  match file with
  | [] => []
  | fieldnames :: lines => next_row fieldnames <$> filter (fun l => l <> []) lines
  end.

(** The cell stored under a header name, if the row has that key. *)
Fixpoint find_field (row : Row) (key : string) : option (option string) :=
  match row with
  | [] => None
  | Field k v :: row' => if decide (key = k) then Some v else find_field row' key
  | Rest _ _ :: row' => find_field row' key
  end.

(** [row.get(key)]: [None] when the key is absent (or its cell is). *)
Definition get (row : Row) (key : string) : option string :=
  match find_field row key with
  | Some v => v
  | None => None
  end.

(** [row.get(key, default)] *)
Definition get_default (row : Row) (key : string) (default : string) : option string :=
  match find_field row key with
  | Some v => v
  | None => Some default
  end.

End Csv.

(** ** [models.py] and [db_loader.py] *)

Module Models.

(** [class Bio(SQLModel, table=True)]. *)
Record Bio := {
  Number : option Z;
  Player : option string;
  FirstName : string;
  LastName : string;
  Position : option string;
  Height : option string;
  Weight : option string;
  Class : option string;
  Hometown : option string;
  HighSchool : option string
}.

(** The fields [class Stats(SQLModel, table=True)] declares.  All but the
    two key fields default to [None]. *)
Definition Stats_fields : list string :=
  ["Number"; "FirstName"; "LastName"; "GP"; "G"; "A"; "PTS"; "SH"; "SH_PCT";
   "plus_minus"; "PPG"; "SHG"; "FG"; "GWG"; "GTG"; "OTG"; "HTG"; "UAG";
   "PN_PIM"; "MIN"; "MAJ"; "OTH"; "BLK"].

End Models.

Module Db_loader.
Import Py Csv Models.

Section Coercer.

(** Python's [float] and [float(s)] on a [str] stay abstract: the type of
    floats, and the float a text reads as ([None] where [float] raises). *)
Context {float : Type} (float_of_str : string -> option float).

(** What a keyword of the call [Stats( **kw )] holds after coercion. *)
Inductive value :=
| VNone
| VInt (z : Z)
| VFloat (f : float)
| VStr (s : string).

Definition of_int (o : option Z) : value :=
  match o with Some z => VInt z | None => VNone end.

Definition of_float (o : option float) : value :=
  match o with Some f => VFloat f | None => VNone end.

(** [def _coerce_int(value)]: [int(value)], or [None] on any exception. *)
Definition _coerce_int (value : option string) : option Z :=
  match int value with
  | Ok z => Some z
  | Raise _ => None
  end.

(** [def _coerce_float(value)]: [float(value)], or [None] on any
    exception ([float(None)] raises [TypeError]). *)
Definition _coerce_float (value : option string) : option float :=
  match value with
  | Some s => float_of_str s
  | None => None
  end.

(** [(x or "")] for a cell [x]. *)
Definition or_empty (x : option string) : string :=
  match x with
  | Some s => s
  | None => ""
  end.

(** The body of the loop of [make_bio_instances] (and of [load_bios],
    which repeats it): one [Bio] from one row. *)
Definition make_bio_row (row : Row) : Bio :=
  let num := _coerce_int (get_default row "Number" "") in
  {| Number := num;
     Player := Some (strip (or_empty (get row "Player")));
     FirstName := strip (or_empty (get row "FirstName"));
     LastName := strip (or_empty (get row "LastName"));
     Position := Some (strip (or_empty (get row "Position")));
     Height := Some (strip (or_empty (get row "Height")));
     Weight := Some (strip (or_empty (get row "Weight")));
     Class := Some (strip (or_empty (get row "Class")));
     Hometown := Some (strip (or_empty (get row "Hometown")));
     HighSchool := Some (strip (or_empty (get row "HighSchool"))) |}.

(** [def make_bio_instances(csv_path)], on the content of the file. *)
Definition make_bio_instances (csv_file : list (list string)) : list Bio :=
  make_bio_row <$> DictReader csv_file.

(** The set [int_fields] of [make_stats_instances] (and of [load_stats]). *)
Definition int_fields : gset string :=
  list_to_set ["GP"; "G"; "A"; "PTS"; "SH"; "plus_minus"; "PPG"; "SHG"; "FG";
               "GWG"; "GTG"; "OTG"; "HTG"; "UAG"; "MIN"; "MAJ"; "OTH"; "BLK";
               "Number"].

(** One turn of [for key, val in row.items()].  The [restkey] entry has
    the key [None], which passes every test down to the last branch, where
    its value, a non-empty list, is truthy and has no [strip]. *)
Definition stats_item (kw : gmap string value) (it : item) : result (gmap string value) :=
  match it with
  | Field key val =>
      if decide (key ∈ ["Number"; "FirstName"; "LastName"]) then Ok kw
      else if decide (key = "PN-PIM") then
        Ok (<["PN_PIM" := VStr (strip (or_empty val))]> kw)
      else if decide (key ∈ int_fields) then
        Ok (<[key := of_int (_coerce_int val)]> kw)
      else if decide (key = "SH_PCT") then
        Ok (<[key := of_float (_coerce_float val)]> kw)
      else
        Ok (<[key := VStr (strip (or_empty val))]> kw)
  | Rest _ _ => Raise AttributeError
  end.

Fixpoint stats_items (kw : gmap string value) (items : list item) : result (gmap string value) :=
  match items with
  | [] => Ok kw
  | it :: items' => bind (stats_item kw it) (fun kw' => stats_items kw' items')
  end.

(** The keywords [kw] that the loop body of [make_stats_instances] (and of
    [load_stats]) builds from one row. *)
Definition stats_kw (row : Row) : result (gmap string value) :=
  let kw := <["Number" := of_int (_coerce_int (get_default row "Number" ""))]> ∅ in
  let kw := <["FirstName" := VStr (strip (or_empty (get row "FirstName")))]> kw in
  let kw := <["LastName" := VStr (strip (or_empty (get row "LastName")))]> kw in
  stats_items kw row.

(** [Stats( **kw )]: the constructor of a table model sets each declared
    field from the keyword of its name, or to the field's default [None];
    it checks no type and keeps no other keyword.  A [Stats] record is the
    map from its field names to what they hold. *)
Definition Stats_new (kw : gmap string value) : gmap string value :=
  list_to_map ((fun f => (f, default VNone (kw !! f))) <$> Stats_fields).

Definition make_stats_row (row : Row) : result (gmap string value) :=
  bind (stats_kw row) (fun kw => Ok (Stats_new kw)).

Fixpoint stats_rows (rows : list Row) : result (list (gmap string value)) :=
  match rows with
  | [] => Ok []
  | row :: rows' =>
      bind (make_stats_row row) (fun stat =>
      bind (stats_rows rows') (fun stats => Ok (stat :: stats)))
  end.

(** [def make_stats_instances(csv_path)], on the content of the file: an
    exception in one row leaves the function without a result. *)
Definition make_stats_instances (csv_file : list (list string))
    : result (list (gmap string value)) :=
  stats_rows (DictReader csv_file).

(** *** The store and the session

    The two tables, each keyed by (FirstName, LastName).  SQLite is not
    asked to enforce the foreign key of [stats]. *)
Record Database := {
  bio : gmap (string * string) Bio;
  stats : gmap (string * string) (gmap string value)
}.

Inductive Instance :=
| BioObj (b : Bio)
| StatsObj (s : gmap string value).

Definition text (v : option value) : string :=
  match v with
  | Some (VStr s) => s
  | _ => ""
  end.

(** An INTEGER of SQLite is a signed 64-bit value: the driver refuses to
    bind a Python [int] outside that range, with [OverflowError]. *)
Definition fits_int64 (z : Z) : bool := ((- 2 ^ 63 <=? z) && (z <? 2 ^ 63))%Z.

Definition bindable_value (v : value) : bool :=
  match v with
  | VInt z => fits_int64 z
  | _ => true
  end.

(** Every attribute of the object can be bound as a parameter of its INSERT. *)
Definition bindable (o : Instance) : bool :=
  match o with
  | BioObj b =>
      match Number b with
      | Some z => fits_int64 z
      | None => true
      end
  | StatsObj s => forallb (fun kv => bindable_value kv.2) (map_to_list s)
  end.

(** The INSERT of one pending object: its parameters are bound, then the
    row is written, for which its primary key must be free. *)
Definition insert (db : Database) (o : Instance) : result Database :=
  if bindable o then
    match o with
    | BioObj b =>
        let k := (FirstName b, LastName b) in
        match bio db !! k with
        | Some _ => Raise IntegrityError
        | None => Ok {| bio := <[k := b]> (bio db); stats := stats db |}
        end
    | StatsObj s =>
        let k := (text (s !! "FirstName"), text (s !! "LastName")) in
        match stats db !! k with
        | Some _ => Raise IntegrityError
        | None => Ok {| bio := bio db; stats := <[k := s]> (stats db) |}
        end
    end
  else Raise OverflowError.

Fixpoint flush (db : Database) (objs : list Instance) : result Database :=
  match objs with
  | [] => Ok db
  | o :: objs' => bind (insert db o) (fun db' => flush db' objs')
  end.

(** A [Session]: the objects added since the last commit, over the
    committed content of the database. *)
Record Session := {
  pending : list Instance;
  committed : Database
}.

(** A step of a program that holds a session: the session it leaves, and
    its value or the exception it raised. *)
Definition Prog (A : Type) : Type := Session -> Session * result A.

Definition ret {A} (a : A) : Prog A := fun s => (s, Ok a).

Definition raise_from {A} (r : result A) : Prog A := fun s => (s, r).

Definition and_then {A B} (m : Prog A) (k : A -> Prog B) : Prog B :=
  fun s =>
    match m s with
    | (s', Ok a) => k a s'
    | (s', Raise e) => (s', Raise e)
    end.

(** [session.add_all(objs)] *)
Definition add_all (objs : list Instance) : Prog unit :=
  fun s => ({| pending := pending s ++ objs; committed := committed s |}, Ok tt).

(** [session.commit()]: the pending objects are flushed in one
    transaction; when an INSERT fails the transaction is rolled back and
    the exception surfaces. *)
Definition commit : Prog unit :=
  fun s =>
    match flush (committed s) (pending s) with
    | Ok db => ({| pending := []; committed := db |}, Ok tt)
    | Raise e => ({| pending := []; committed := committed s |}, Raise e)
    end.

(** [with Session(engine) as session: body], on a database [db]: what the
    database holds afterwards, and how the block ended.
    ([SQLModel.metadata.create_all] only makes sure the two tables exist.) *)
Definition with_Session {A} (body : Prog A) (db : Database) : Database * result A :=
  let '(s, r) := body {| pending := []; committed := db |} in (committed s, r).

(** [def load_bios(db_url, csv_path)] *)
Definition load_bios (db : Database) (csv_file : list (list string))
    : Database * result (list Bio) :=
  let bios := make_bio_row <$> DictReader csv_file in
  with_Session
    (and_then (add_all (BioObj <$> bios)) (fun _ =>
     and_then commit (fun _ =>
     ret bios))) db.

(** [def load_stats(db_url, csv_path)] *)
Definition load_stats (db : Database) (csv_file : list (list string))
    : Database * result (list (gmap string value)) :=
  match stats_rows (DictReader csv_file) with
  | Raise e => (db, Raise e)
  | Ok rows =>
      with_Session
        (and_then (add_all (StatsObj <$> rows)) (fun _ =>
         and_then commit (fun _ =>
         ret rows))) db
  end.

(** The body of [init.py]. *)
Definition init (db : Database) (bio_csv stats_csv : list (list string))
    : Database * result unit :=
  with_Session
    (and_then (ret (make_bio_instances bio_csv)) (fun bios =>
     and_then (add_all (BioObj <$> bios)) (fun _ =>
     and_then commit (fun _ =>
     and_then (raise_from (make_stats_instances stats_csv)) (fun stats =>
     and_then (add_all (StatsObj <$> stats)) (fun _ =>
     commit)))))) db.

End Coercer.

Arguments value : clear implicits.
Arguments Database : clear implicits.
Arguments Instance : clear implicits.
Arguments Session : clear implicits.
Arguments Prog : clear implicits.

End Db_loader.

(** ** The pages the scrapers read

    A page is modelled by what the selectors of the scrapers find on it;
    the text of an element is the text the library in use hands out for it
    ([inner_text()] of Playwright, [get_text()] of BeautifulSoup). *)

Module Dom.

(** [span.sidearm-roster-player-name]: its own text, and the texts of the
    [span] elements below it, in document order. *)
Record NameElement := {
  name_text : string;
  name_spans : list string
}.

(** A [dl] under [.sidearm-roster-player-fields]: the text of its first
    [dt] and of its first [dd], where it has one. *)
Record Dl := {
  dt : option string;
  dd : option string
}.

(** A profile page (or, for the fallback of the requests scraper, a
    [.sidearm-roster-player] block of the roster page). *)
Record Profile := {
  jersey_number : option string;
  player_name : option NameElement;
  player_fields : list Dl
}.

(** The roster page: the [href] attribute of each [a] element in document
    order ([None] for an anchor without one), and its player blocks. *)
Record Roster := {
  anchors : list (option string);
  players : list Profile
}.

Inductive stream := stdout | stderr.

End Dom.

(** ** [scrape_bios_playwright.py] *)

Module Scrape_bios_playwright.
Import Py Dom.

Definition ROSTER_URL : string := "https://hurstathletics.com/sports/mens-ice-hockey/roster".

Definition HEADERS : list string :=
  ["Number"; "Player"; "FirstName"; "LastName"; "Position"; "Height";
   "Weight"; "Class"; "Hometown"; "HighSchool"].

(** [def normalize(s)] *)
Definition normalize (s : string) : string :=
  strip (join " " (split (replace_nbsp s))).

(** One turn of the loop over the [dl] elements of the fields container. *)
Definition set_field (data : gmap string string) (dl : Dl) : gmap string string :=
  match dt dl, dd dl with
  | Some dt_text, Some dd_text =>
      let key := rstrip_colon (normalize dt_text) in
      let val := normalize dd_text in
      let lk := lower key in
      if startswith lk "position" then <["Position" := val]> data
      else if startswith lk "height" then <["Height" := val]> data
      else if startswith lk "weight" then <["Weight" := val]> data
      else if startswith lk "class" then <["Class" := val]> data
      else if startswith lk "hometown" then <["Hometown" := val]> data
      else if startswith lk "high school" || startswith lk "highschool"
      then <["HighSchool" := val]> data
      else data
  | _, _ => data
  end.

(** [def extract_from_profile(page)].  (The image element the source also
    looks up only feeds a local variable that is never read.) *)
Definition extract_from_profile (page : Profile) : gmap string string :=
  let data : gmap string string := list_to_map ((fun h => (h, "")) <$> HEADERS) in
  let data :=
    match jersey_number page with
    | Some num_text => <["Number" := normalize num_text]> data
    | None => data
    end in
  let data :=
    match player_name page with
    | Some name_el =>
        let parts := normalize <$> name_spans name_el in
        let full := strip (join " " parts) in
        let data := <["Player" := full]> data in
        match parts with
        | first :: _ =>
            <["LastName" := default first (last parts)]> (<["FirstName" := first]> data)
        | [] => data
        end
    | None => data
    end in
  fold_left set_field (player_fields page) data.

(** The anchors [a[href*="/sports/mens-ice-hockey/roster/"]] selects. *)
Definition selected (a : option string) : bool :=
  match a with
  | Some href => contains href "/sports/mens-ice-hockey/roster/"
  | None => false
  end.

(** One turn of the loop of [gather_profile_links]. *)
Definition add_link (hrefs : list string) (a : option string) : list string :=
  match a with
  | None => hrefs
  | Some href =>
      if decide (href = "") then hrefs
      else
        let href :=
          if startswith href "/" then "https://hurstathletics.com" +:+ href else href in
        if decide (href ∈ hrefs) then hrefs else hrefs ++ [href]
  end.

(** [def gather_profile_links(page)] *)
Definition gather_profile_links (page : Roster) : list string :=
  fold_left add_link (filter (fun a => selected a = true) (anchors page)) [].

Section Driver.

(** What visiting a profile link gives: the loaded page, or the text of
    the exception that [page.goto] or [page.wait_for_selector] raised. *)
Context (visit : string -> string + Profile) (OUT_CSV : string).

(** One turn of the loop of [main] over [enumerate(profile_links, start=1)]. *)
Definition visit_link (n : nat) (acc : list (list string) * list (stream * string))
    (link : nat * string) : list (list string) * list (stream * string) :=
  let '(rows, out) := acc in
  let '(i, url) := link in
  let out := out ++ [(stdout, "[" +:+ pretty i +:+ "/" +:+ pretty n +:+ "] Visiting " +:+ url)] in
  match visit url with
  | inr page =>
      let data := extract_from_profile page in
      (rows ++ [(fun h => data !!! h) <$> HEADERS], out)
  | inl exc =>
      (rows, out ++ [(stderr, "Failed to scrape " +:+ url +:+ ": " +:+ exc)])
  end.

(** [def main()], once the roster page is loaded: the table written to
    [OUT_CSV] and the lines printed. *)
Definition main (roster : Roster) : list (list string) * list (stream * string) :=
  let out := [(stdout, "Opening roster page: " +:+ ROSTER_URL)] in
  let profile_links := gather_profile_links roster in
  let n := length profile_links in
  let out := out ++ [(stdout, "Found " +:+ pretty n +:+ " profile links")] in
  let '(rows, out) := fold_left (visit_link n) (zip (seq 1 n) profile_links) ([], out) in
  (HEADERS :: rows,
   out ++ [(stdout, "Wrote " +:+ pretty (length rows) +:+ " bios to " +:+ OUT_CSV)]).

End Driver.

End Scrape_bios_playwright.

(** ** [scrape_bios_requests.py] *)

Module Scrape_bios_requests.
Import Py Dom.

Definition ROSTER_URL : string := "https://hurstathletics.com/sports/mens-ice-hockey/roster".

Definition HEADERS : list string :=
  ["Number"; "Player"; "FirstName"; "LastName"; "Position"; "Height";
   "Weight"; "Class"; "Hometown"; "HighSchool"].

(** [def normalize(s)] *)
Definition normalize (s : string) : string :=
  if decide (s = "") then ""
  else strip (join " " (split (replace_nbsp s))).

(** One turn of the loop of [gather_profile_links] over the anchors that
    carry an [href]. *)
Definition add_link (hrefs : list string) (href : string) : list string :=
  if contains href "/sports/mens-ice-hockey/roster/"
     && bool_decide (href ∉ ["/sports/mens-ice-hockey/roster";
                             "https://hurstathletics.com/sports/mens-ice-hockey/roster"])
  then
    let href :=
      if startswith href "/" then "https://hurstathletics.com" +:+ href else href in
    if decide (href ∈ hrefs) then hrefs else hrefs ++ [href]
  else hrefs.

(** [def gather_profile_links(soup)] *)
Definition gather_profile_links (soup : Roster) : list string :=
  fold_left add_link (omap id (anchors soup)) [].

(** One turn of the loop over the [dl] elements of the fields container. *)
Definition set_field (data : gmap string string) (dl : Dl) : gmap string string :=
  match dt dl, dd dl with
  | Some dt_text, Some dd_text =>
      let key := rstrip_colon (normalize dt_text) in
      let val := normalize dd_text in
      let lk := lower key in
      if startswith lk "position" then <["Position" := val]> data
      else if startswith lk "height" then <["Height" := val]> data
      else if startswith lk "weight" then <["Weight" := val]> data
      else if startswith lk "class" then <["Class" := val]> data
      else if startswith lk "hometown" then <["Hometown" := val]> data
      else if startswith lk "high school" || startswith lk "highschool"
      then <["HighSchool" := val]> data
      else data
  | _, _ => data
  end.

(** [def extract_from_profile(soup)] *)
Definition extract_from_profile (soup : Profile) : gmap string string :=
  let data : gmap string string := list_to_map ((fun h => (h, "")) <$> HEADERS) in
  let data :=
    match jersey_number soup with
    | Some num_text => <["Number" := normalize num_text]> data
    | None => data
    end in
  let data :=
    match player_name soup with
    | Some name_el =>
        let parts := normalize <$> name_spans name_el in
        let '(full, parts) :=
          match parts with
          | [] => let full := normalize (name_text name_el) in (full, split full)
          | _ => (strip (join " " parts), parts)
          end in
        let data := <["Player" := full]> data in
        match parts with
        | first :: _ =>
            <["LastName" := default first (last parts)]> (<["FirstName" := first]> data)
        | [] => data
        end
    | None => data
    end in
  fold_left set_field (player_fields soup) data.

Section Driver.

(** What fetching a profile link gives: the parsed page, or the text of
    the exception that [get_soup] raised.  ([time.sleep] only waits.) *)
Context (get_soup : string -> string + Profile) (OUT_CSV : string).

(** One turn of the loop of [main] over [enumerate(profile_links, start=1)]. *)
Definition visit_link (n : nat) (acc : list (list string) * list (stream * string))
    (link : nat * string) : list (list string) * list (stream * string) :=
  let '(rows, out) := acc in
  let '(i, url) := link in
  let out := out ++ [(stdout, "[" +:+ pretty i +:+ "/" +:+ pretty n +:+ "] " +:+ url)] in
  match get_soup url with
  | inr psoup =>
      let data := extract_from_profile psoup in
      (rows ++ [(fun h => data !!! h) <$> HEADERS], out)
  | inl exc =>
      (rows, out ++ [(stdout, "Failed " +:+ url +:+ ": " +:+ exc)])
  end.

(** [def main()], once the roster page is fetched: the table written to
    [OUT_CSV] and the lines printed. *)
Definition main (soup : Roster) : list (list string) * list (stream * string) :=
  let out := [(stdout, "Fetching roster page: " +:+ ROSTER_URL)] in
  let profile_links := gather_profile_links soup in
  let n := length profile_links in
  let out := out ++ [(stdout, "Found " +:+ pretty n +:+ " profile links (attempting to fetch each)")] in
  let '(rows, out) := fold_left (visit_link n) (zip (seq 1 n) profile_links) ([], out) in
  let '(rows, out) :=
    match rows with
    | [] =>
        (((fun player_div =>
             let pdata := extract_from_profile player_div in
             (fun h => pdata !!! h) <$> HEADERS) <$> players soup),
         out ++ [(stdout, "No profile pages scraped; attempting to parse roster page entries directly")])
    | _ => (rows, out)
    end in
  (HEADERS :: rows,
   out ++ [(stdout, "Wrote " +:+ pretty (length rows) +:+ " bios to " +:+ OUT_CSV)]).

End Driver.

End Scrape_bios_requests.

(** ** Vocabulary of the specification

    Predicates and readings in which the properties below are stated. *)

Module Spec.
Import Py Csv Models Dom.

(** *** Text *)

Fixpoint no_space (w : string) : bool :=
  match w with
  | EmptyString => true
  | String c w' => negb (is_space c) && no_space w'
  end.

Fixpoint all_space (w : string) : bool :=
  match w with
  | EmptyString => true
  | String c w' => is_space c && all_space w'
  end.

(** A word: a non-empty text without white space. *)
Definition is_word (w : string) : Prop := w <> "" /\ no_space w = true.

(** [s] is empty or starts with white space. *)
Definition blank_start (s : string) : bool :=
  match s with
  | String c _ => is_space c
  | EmptyString => true
  end.

(** The words of a text, in order: its maximal runs of characters that
    are not white space.  Each word stands after a run of white space
    (empty at the start of the text only) and ends where the text ends or
    white space follows. *)
Inductive words_of : string -> list string -> Prop :=
| words_of_blank g : all_space g = true -> words_of g []
| words_of_word g w rest ws :
    all_space g = true -> is_word w -> blank_start rest = true ->
    words_of rest ws -> words_of (g +:+ w +:+ rest) (w :: ws).

(** The words with one ordinary space between neighbours and none at
    either end. *)
Fixpoint single_spaced (ws : list string) : string :=
  match ws with
  | [] => ""
  | [w] => w
  | w :: ws' => w +:+ " " +:+ single_spaced ws'
  end.

(** Every white space character of [s] is the ordinary space. *)
Fixpoint only_plain_spaces (s : string) : bool :=
  match s with
  | EmptyString => true
  | String c s' => (negb (is_space c) || bool_decide (c = space)) && only_plain_spaces s'
  end.

(** No two white space characters of [s] stand side by side. *)
Fixpoint no_adjacent_spaces (s : string) : bool :=
  match s with
  | String a ((String b _) as s') => negb (is_space a && is_space b) && no_adjacent_spaces s'
  | _ => true
  end.

Definition first_char (s : string) : option ascii :=
  match s with
  | String c _ => Some c
  | EmptyString => None
  end.

Fixpoint last_char (s : string) : option ascii :=
  match s with
  | EmptyString => None
  | String c EmptyString => Some c
  | String _ s' => last_char s'
  end.

Definition not_space_at (o : option ascii) : bool :=
  match o with
  | Some c => negb (is_space c)
  | None => true
  end.

(** [s] neither starts nor ends with white space. *)
Definition trimmed (s : string) : bool :=
  not_space_at (first_char s) && not_space_at (last_char s).

(** White space runs collapsed: only ordinary spaces, one at a time, and
    none at either end. *)
Definition collapsed (s : string) : bool :=
  only_plain_spaces s && no_adjacent_spaces s && trimmed s.

(** *** The stats loop, branch by branch *)

Section Coercer.
Context {float : Type} (float_of_str : string -> option float).

(** The keyword under which the loop stores the column [key], if it
    stores it. *)
Definition target (key : string) : option string :=
  if decide (key ∈ ["Number"; "FirstName"; "LastName"]) then None
  else if decide (key = "PN-PIM") then Some "PN_PIM"
  else Some key.

(** The value the loop stores for the cell [val] of the column [key]. *)
Definition coerced (key : string) (val : option string) : Db_loader.value float :=
  if decide (key = "PN-PIM") then Db_loader.VStr (strip (Db_loader.or_empty val))
  else if decide (key ∈ Db_loader.int_fields) then
    Db_loader.of_int (Db_loader._coerce_int val)
  else if decide (key = "SH_PCT") then
    Db_loader.of_float (Db_loader._coerce_float float_of_str val)
  else Db_loader.VStr (strip (Db_loader.or_empty val)).

Definition write (kw : gmap string (Db_loader.value float)) (it : item)
    : gmap string (Db_loader.value float) :=
  match it with
  | Field key val =>
      match target key with
      | Some f => <[f := coerced key val]> kw
      | None => kw
      end
  | Rest _ _ => kw
  end.

(** The item stores under the keyword [f]. *)
Definition feeds (f : string) (it : item) : Prop :=
  match it with
  | Field key _ => target key = Some f
  | Rest _ _ => False
  end.

(** The keywords set ahead of the loop. *)
Definition first_keywords (row : Row) : gmap string (Db_loader.value float) :=
  <["LastName" := Db_loader.VStr (strip (Db_loader.or_empty (get row "LastName")))]>
  (<["FirstName" := Db_loader.VStr (strip (Db_loader.or_empty (get row "FirstName")))]>
  (<["Number" := Db_loader.of_int (Db_loader._coerce_int (get_default row "Number" ""))]> ∅)).

(** What a declared field of the record is expected to hold for a row:
    the three fields set ahead of the loop, and any other field from the
    column of its own name. *)
Definition stats_expected (row : Row) (f : string) : Db_loader.value float :=
  if decide (f = "Number") then
    Db_loader.of_int (Db_loader._coerce_int (get_default row "Number" ""))
  else if decide (f ∈ ["FirstName"; "LastName"]) then
    Db_loader.VStr (strip (Db_loader.or_empty (get row f)))
  else
    match find_field row f with
    | Some val => coerced f val
    | None => Db_loader.VNone
    end.

End Coercer.

Definition is_rest (it : item) : bool :=
  match it with
  | Rest _ _ => true
  | Field _ _ => false
  end.

(** The line held more cells than the header has names. *)
Definition has_rest (row : Row) : bool := existsb is_rest row.

(** [int] raises on the cell. *)
Definition unparsable (v : option string) : Prop := exists e, int v = Raise e.

(** An integer cell that is empty, missing, or does not parse, as
    [find_field] reads it: the row has no such column, or the cell under
    it is [None] (a short line), empty, or a text [int] rejects. *)
Definition bad_int_cell (c : option (option string)) : Prop :=
  match c with
  | None => True
  | Some v => unparsable v
  end.

(** The string fields of a [Bio], by name. *)
Definition bio_string_fields : list string :=
  ["Player"; "FirstName"; "LastName"; "Position"; "Height"; "Weight";
   "Class"; "Hometown"; "HighSchool"].

(** [getattr(b, name)] for a string field: [Some None] is Python's [None]. *)
Definition Bio_str (name : string) (b : Bio) : option (option string) :=
  if decide (name = "Player") then Some (Player b)
  else if decide (name = "FirstName") then Some (Some (FirstName b))
  else if decide (name = "LastName") then Some (Some (LastName b))
  else if decide (name = "Position") then Some (Position b)
  else if decide (name = "Height") then Some (Height b)
  else if decide (name = "Weight") then Some (Weight b)
  else if decide (name = "Class") then Some (Class b)
  else if decide (name = "Hometown") then Some (Hometown b)
  else if decide (name = "HighSchool") then Some (HighSchool b)
  else None.

(** A reading of [float] under which no text is a float, for the places
    that need some reading and meet no [SH_PCT] cell. *)
Definition no_floats : string -> option Empty_set := fun _ => None.

(** *** Links *)

Definition origin : string := "https://hurstathletics.com".

Definition absolute (href : string) : string :=
  if startswith href "/" then origin +:+ href else href.







(** Appending a URL that was not seen yet. *)
Definition add_url (seen : list string) (u : string) : list string :=
  if decide (u ∈ seen) then seen else seen ++ [u].


(** *** The scraper drivers *)

Section Driver.
Context (visit : string -> string + Profile).

(** The rows of the links whose visit gave a page, in the order of the links. *)
Definition scraped (row_of : Profile -> list string) (links : list string)
    : list (list string) :=
  omap (fun url => match visit url with
                   | inr page => Some (row_of page)
                   | inl _ => None
                   end) links.

(** The links whose visit raised, each with the text of its exception. *)
Definition failed (links : list string) : list (string * string) :=
  omap (fun url => match visit url with
                   | inl exc => Some (url, exc)
                   | inr _ => None
                   end) links.

(** What the loop prints for its links: a progress line for each, and a
    failure line after it when the visit raised. *)
Definition loop_lines (progress : nat * string -> stream * string)
    (failure : string * string -> stream * string)
    (links : list (nat * string)) : list (stream * string) :=
  links ≫= (fun link =>
    progress link ::
    match visit link.2 with
    | inl exc => [failure (link.2, exc)]
    | inr _ => []
    end).

End Driver.

Definition playwright_row (page : Profile) : list string :=
  (fun h => Scrape_bios_playwright.extract_from_profile page !!! h)
    <$> Scrape_bios_playwright.HEADERS.

Definition requests_row (page : Profile) : list string :=
  (fun h => Scrape_bios_requests.extract_from_profile page !!! h)
    <$> Scrape_bios_requests.HEADERS.

Definition playwright_progress (n : nat) (link : nat * string) : stream * string :=
  (stdout, "[" +:+ pretty link.1 +:+ "/" +:+ pretty n +:+ "] Visiting " +:+ link.2).

Definition playwright_failure (f : string * string) : stream * string :=
  (stderr, "Failed to scrape " +:+ f.1 +:+ ": " +:+ f.2).

Definition requests_progress (n : nat) (link : nat * string) : stream * string :=
  (stdout, "[" +:+ pretty link.1 +:+ "/" +:+ pretty n +:+ "] " +:+ link.2).

Definition requests_failure (f : string * string) : stream * string :=
  (stdout, "Failed " +:+ f.1 +:+ ": " +:+ f.2).

(** A printed line that reports a failed profile. *)
Definition is_failure_line (line : stream * string) : Prop :=
  startswith line.2 "Failed " = true.

(** A printed line that announces the visit of a link. *)
Definition is_progress_line (line : stream * string) : Prop :=
  startswith line.2 "[" = true.

(** *** The store *)

Section Store.
Context {float : Type}.

Definition stored (db : Db_loader.Database float) (o : Db_loader.Instance float) : Prop :=
  match o with
  | Db_loader.BioObj b => Db_loader.bio db !! (FirstName b, LastName b) = Some b
  | Db_loader.StatsObj s =>
      Db_loader.stats db !! (Db_loader.text (s !! "FirstName"),
                             Db_loader.text (s !! "LastName")) = Some s
  end.

(** Every record of the batch is in the store. *)
Definition holds_all (db : Db_loader.Database float)
    (batch : list (Db_loader.Instance float)) : Prop :=
  Forall (stored db) batch.

(** The store [db'] keeps every record of [db]. *)
Definition keeps (db db' : Db_loader.Database float) : Prop :=
  Db_loader.bio db ⊆ Db_loader.bio db' /\ Db_loader.stats db ⊆ Db_loader.stats db'.

Definition empty_db : Db_loader.Database float :=
  {| Db_loader.bio := ∅; Db_loader.stats := ∅ |}.

End Store.

End Spec.

(** ** Sample inputs *)

Module Inputs.
Import Csv Dom.

(** [stats.csv]: a row whose [GP] cell is empty and whose [PN-PIM] is 5. *)
Definition stats_csv : list (list string) :=
  [["Number"; "FirstName"; "LastName"; "GP"; "G"; "PN-PIM"];
   ["x"; " Jane"; "Doe "; ""; "3"; "5"]].

Definition stats_row : Row :=
  [Field "Number" (Some "x"); Field "FirstName" (Some " Jane");
   Field "LastName" (Some "Doe "); Field "GP" (Some ""); Field "G" (Some "3");
   Field "PN-PIM" (Some "5")].

(** A header that spells the penalty column both ways. *)
Definition both_spellings : Row :=
  [Field "FirstName" (Some "Jane"); Field "LastName" (Some "Doe");
   Field "PN-PIM" (Some "5"); Field "PN_PIM" (Some "x")].

(** A stats file whose second line ends with a comma, so it holds one
    cell more than the header has names. *)
Definition trailing_comma_csv : list (list string) :=
  [["Number"; "FirstName"; "LastName"; "GP"];
   ["7"; "Jane"; "Doe"; "12"];
   ["9"; "John"; "Roe"; "x"; ""]].


(** The row the reader yields for its second line. *)
Definition trailing_comma_row : Row :=
  [Field "Number" (Some "9"); Field "FirstName" (Some "John");
   Field "LastName" (Some "Roe"); Field "GP" (Some "x"); Rest "" []].

(** A profile page whose name element holds its text directly, with no
    [span] below it. *)
Definition spanless_page : Profile :=
  {| jersey_number := Some "12";
     player_name := Some {| name_text := "Jane Doe"; name_spans := [] |};
     player_fields := [{| dt := Some "Position:"; dd := Some "Forward" |}] |}.

(** A profile page whose name element starts with an empty [span]. *)
Definition empty_first_span_page : Profile :=
  {| jersey_number := None;
     player_name := Some {| name_text := "Doe"; name_spans := [""; "Doe"] |};
     player_fields := [] |}.

(** A profile page with the name in two [span]s. *)
Definition two_span_page : Profile :=
  {| jersey_number := Some " 12 ";
     player_name := Some {| name_text := "Jane Doe"; name_spans := ["Jane "; " Doe"] |};
     player_fields := [{| dt := Some "Height:"; dd := Some "5-10" |}] |}.

(** [bio.csv] with one player. *)
Definition bio_csv : list (list string) :=
  [["Number"; "Player"; "FirstName"; "LastName"];
   ["12"; "Jane Doe"; "Jane"; "Doe"]].


End Inputs.

(** ** Further vocabulary *)

Module Terms.
Import Py Csv Models Dom.

(** The words [ws], each after one ordinary space. *)
Fixpoint spaced (ws : list string) : string :=
  match ws with
  | [] => EmptyString
  | w :: ws' => String space (w +:+ spaced ws')
  end.

Definition detail_fields : list string :=
  ["Position"; "Height"; "Weight"; "Class"; "Hometown"; "HighSchool"].

(** The field a label selects: the first test of the [if]/[elif] chain
    that its lowered text, colons off its end, passes. *)
Definition label_field (dt_text : string) : option string :=
  let lk := lower (rstrip_colon (Scrape_bios_playwright.normalize dt_text)) in
  if startswith lk "position" then Some "Position"
  else if startswith lk "height" then Some "Height"
  else if startswith lk "weight" then Some "Weight"
  else if startswith lk "class" then Some "Class"
  else if startswith lk "hometown" then Some "Hometown"
  else if startswith lk "high school" || startswith lk "highschool" then Some "HighSchool"
  else None.

(** The field a [dl] sets and the value it sets it to, when it has both a
    [dt] and a [dd] and its label selects a field. *)
Definition pair_field (dl : Dl) : option (string * string) :=
  match dt dl, dd dl with
  | Some dt_text, Some dd_text =>
      match label_field dt_text with
      | Some f => Some (f, Scrape_bios_playwright.normalize dd_text)
      | None => None
      end
  | _, _ => None
  end.

(** The [dl] sets the field [f]. *)
Definition sets_field (f : string) (dl : Dl) : Prop :=
  exists v, pair_field dl = Some (f, v).

(** The page without its label/value pairs. *)
Definition without_fields (page : Profile) : Profile :=
  {| jersey_number := jersey_number page;
     player_name := player_name page;
     player_fields := [] |}.

(** A mapping with exactly the ten headers as keys, whose values have no
    white space at either end. *)
Definition clean (data : gmap string string) : Prop :=
  (forall k, is_Some (data !! k) <-> k ∈ Scrape_bios_playwright.HEADERS)
  /\ map_Forall (fun _ v => Spec.trimmed v = true) data.

(** The pages of the links whose visit succeeded, in the order of the links. *)
Definition loaded (visit : string -> string + Profile) (links : list string)
    : list Profile :=
  omap (fun url => match visit url with
                   | inr page => Some page
                   | inl _ => None
                   end) links.

(** The [Bio] that holds the ten scraped values as they are, the number
    read as an integer. *)
Definition bio_of_data (data : gmap string string) : Bio :=
  {| Number := Db_loader._coerce_int (Some (data !!! "Number"));
     Player := Some (data !!! "Player");
     FirstName := data !!! "FirstName";
     LastName := data !!! "LastName";
     Position := Some (data !!! "Position");
     Height := Some (data !!! "Height");
     Weight := Some (data !!! "Weight");
     Class := Some (data !!! "Class");
     Hometown := Some (data !!! "Hometown");
     HighSchool := Some (data !!! "HighSchool") |}.

(** The primary key of a [Bio]. *)
Definition bio_key (b : Bio) : string * string := (FirstName b, LastName b).

(** The line the requests scraper prints when it turns to the roster page. *)
Definition fallback_line : stream * string :=
  (stdout, "No profile pages scraped; attempting to parse roster page entries directly").

(** A profile page with two labels for the position and one for the class. *)
Definition labelled_page : Profile :=
  {| jersey_number := Some "9";
     player_name := Some {| name_text := "John Roe"; name_spans := ["John"; "Roe"] |};
     player_fields :=
       [{| dt := Some "Position:"; dd := Some "Forward" |};
        {| dt := Some "CLASS"; dd := Some " Senior " |};
        {| dt := Some "position"; dd := Some "Defense" |};
        {| dt := Some "Major:"; dd := Some "History" |};
        {| dt := None; dd := Some "Weight" |}] |}.

(** The primary key of a [Stats] record built from the keywords [s]. *)
Definition stats_key {float} (s : gmap string (Db_loader.value float)) : string * string :=
  (Db_loader.text (s !! "FirstName"), Db_loader.text (s !! "LastName")).

(** The table [t] with the records [rs] added, each under its key. *)
Definition with_records {A} (key : A -> string * string) (rs : list A)
    (t : gmap (string * string) A) : gmap (string * string) A :=
  list_to_map ((fun r => (key r, r)) <$> rs) ∪ t.

(** The keys of the batch [rs] are pairwise distinct and none of them is
    taken in the table [t]. *)
Definition keys_free {A} (key : A -> string * string) (rs : list A)
    (t : gmap (string * string) A) : Prop :=
  NoDup (key <$> rs) /\ Forall (fun r => t !! key r = None) rs.

(** An integer that SQLite can hold: a signed 64-bit value. *)
Definition in_int64 (z : Z) : Prop := (- 2 ^ 63 <= z < 2 ^ 63)%Z.

(** The jersey number of the [Bio], when it has one, is in that range. *)
Definition bio_fits (b : Bio) : Prop := forall z, Number b = Some z -> in_int64 z.

(** Every integer among the attributes of the [Stats] record is in that range. *)
Definition stats_fits {float} (s : gmap string (Db_loader.value float)) : Prop :=
  forall k z, s !! k = Some (Db_loader.VInt z) -> in_int64 z.

End Terms.

(** * Properties *)

(** A decidable fact about given names, by evaluation. *)
Ltac by_computation := apply (bool_decide_unpack _); vm_compute; exact I.
Ltac refute_by_computation :=
  apply (proj1 (bool_decide_eq_false _)); vm_compute; reflexivity.

(** ** Text *)

Section Text.
Import Py Spec.

Example split_example :
  split ("  Jane " +:+ String nbsp "Q.   Doe" +:+ String "010"%char "")
  = ["Jane"; "Q."; "Doe"].
Proof. reflexivity. Qed.

Example strip_example : strip (String nbsp " Forward  ") = "Forward".
Proof. reflexivity. Qed.

Example int_examples :
  int (Some " 12 ") = Ok 12%Z /\ int (Some "-1_000") = Ok (-1000)%Z
  /\ int (Some "007") = Ok 7%Z /\ int (Some "0") = Ok 0%Z
  /\ int (Some "") = Raise ValueError /\ int (Some "1__0") = Raise ValueError
  /\ int (Some "4.0") = Raise ValueError /\ int (Some "1 2") = Raise ValueError
  /\ int (Some "+") = Raise ValueError /\ int None = Raise TypeError.
Proof. repeat split; reflexivity. Qed.

Example next_row_examples :
  Csv.next_row ["Number"; "FirstName"; "LastName"] ["7"; "Jane"]
  = [Csv.Field "Number" (Some "7"); Csv.Field "FirstName" (Some "Jane");
     Csv.Field "LastName" None]
  /\ Csv.next_row ["FirstName"; "LastName"] ["Jane"; "Doe"; ""]
  = [Csv.Field "FirstName" (Some "Jane"); Csv.Field "LastName" (Some "Doe");
     Csv.Rest "" []].
Proof. split; reflexivity. Qed.

Lemma app_String c s t : String c s +:+ t = String c (s +:+ t).
Proof. reflexivity. Qed.

Lemma app_empty t : "" +:+ t = t.
Proof. reflexivity. Qed.

Lemma app_empty_r s : s +:+ "" = s.
Proof. induction s as [|c s IH]; [done|]. by rewrite app_String, IH. Qed.

Lemma app_assoc_str s t u : (s +:+ t) +:+ u = s +:+ (t +:+ u).
Proof. induction s as [|c s IH]; [done|]. by rewrite !app_String, IH. Qed.

Lemma lstrip_split s :
  exists l, s = l +:+ lstrip s /\ all_space l = true
            /\ not_space_at (first_char (lstrip s)) = true.
Proof.
  induction s as [|c s (l & Hs & Hl & Hf)]; [by exists ""|].
  simpl. destruct (is_space c) eqn:Hc.
  - exists (String c l). rewrite app_String, <- Hs. simpl. by rewrite Hc.
  - exists "". simpl. by rewrite Hc.
Qed.

Lemma rstrip_split s :
  exists r, s = rstrip s +:+ r /\ all_space r = true
            /\ not_space_at (last_char (rstrip s)) = true.
Proof.
  induction s as [|c s (r & Hs & Hr & Hl)]; [by exists ""|].
  simpl. destruct (rstrip s) as [|d t] eqn:E.
  - destruct (is_space c) eqn:Hc.
    + exists (String c r). rewrite app_empty in Hs. subst r.
      simpl. by rewrite Hc.
    + exists r. rewrite app_empty in Hs. subst r. simpl. by rewrite Hc.
  - exists r. by rewrite app_String, <- Hs.
Qed.

Lemma rstrip_first s :
  not_space_at (first_char s) = true -> first_char (rstrip s) = first_char s.
Proof.
  destruct s as [|c s]; [done|]. simpl. intros Hc%negb_true_iff.
  destruct (rstrip s); [by rewrite Hc|done].
Qed.

(** [strip] takes white space off both ends and nothing else. *)
Lemma strip_spec s :
  exists l r, s = l +:+ strip s +:+ r
    /\ all_space l = true /\ all_space r = true /\ trimmed (strip s) = true.
Proof.
  destruct (lstrip_split s) as (l & Hs & Hl & Hf).
  destruct (rstrip_split (lstrip s)) as (r & Ht & Hr & Hlast).
  exists l, r. unfold strip, trimmed. rewrite <- Ht, <- Hs.
  rewrite rstrip_first, Hf, Hlast by done. done.
Qed.

Lemma lstrip_fixed s : not_space_at (first_char s) = true -> lstrip s = s.
Proof. destruct s as [|c s]; simpl; [done|]. by intros ->%negb_true_iff. Qed.

Lemma rstrip_fixed s : not_space_at (last_char s) = true -> rstrip s = s.
Proof.
  induction s as [|c s IH]; [done|]. simpl.
  destruct s as [|d s].
  - simpl. by intros ->%negb_true_iff.
  - intros H. by rewrite (IH H).
Qed.

Lemma strip_trimmed s : trimmed s = true -> strip s = s.
Proof.
  unfold trimmed, strip. intros [Hf Hl]%andb_true_iff.
  rewrite (lstrip_fixed _ Hf). by apply rstrip_fixed.
Qed.

Lemma strip_collapsed s : collapsed s = true -> strip s = s.
Proof.
  unfold collapsed. intros [_ H]%andb_true_iff. by apply strip_trimmed.
Qed.

Lemma words_from_spec s :
  no_space (words_from s).1 = true /\ Forall is_word (words_from s).2.
Proof.
  induction s as [|c s [IHw IHws]]; simpl; [by split|].
  destruct (words_from s) as [w ws]; simpl in *.
  destruct (is_space c) eqn:Hc; simpl.
  - split; [done|]. destruct w; simpl; [done|].
    constructor; [|done]. by split.
  - rewrite Hc. by split.
Qed.

Lemma split_words s : Forall is_word (split s).
Proof.
  unfold split. pose proof (words_from_spec s) as [Hw Hws].
  destruct (words_from s) as [w ws]; simpl in *.
  destruct w; simpl; [done|]. constructor; [|done]. by split.
Qed.

Lemma words_from_replace_nbsp s : words_from (replace_nbsp s) = words_from s.
Proof.
  induction s as [|c s IH]; simpl; [done|]. rewrite IH.
  destruct (words_from s) as [w ws].
  by destruct (Ascii.eqb_spec c nbsp) as [->|Hne].
Qed.

Lemma words_from_word_space w t :
  no_space w = true ->
  words_from (w +:+ String space t)
  = (w, cons_word (words_from t).1 (words_from t).2).
Proof.
  induction w as [|c w IH]; intros Hw.
  - rewrite app_empty. simpl. by destruct (words_from t).
  - simpl in Hw. apply andb_true_iff in Hw as [Hc Hw].
    rewrite app_String. simpl. rewrite (IH Hw).
    apply negb_true_iff in Hc. by rewrite Hc.
Qed.

Lemma words_from_word w : no_space w = true -> words_from w = (w, []).
Proof.
  induction w as [|c w IH]; intros Hw; [done|].
  simpl in Hw. apply andb_true_iff in Hw as [Hc Hw].
  simpl. rewrite (IH Hw). apply negb_true_iff in Hc. by rewrite Hc.
Qed.

Lemma join_cons2 p q ps :
  join " " (p :: q :: ps) = p +:+ String space (join " " (q :: ps)).
Proof. reflexivity. Qed.

Lemma join_nonempty p ps : p <> "" -> join " " (p :: ps) <> "".
Proof. destruct ps; [done|]. rewrite join_cons2. by destruct p. Qed.

Lemma words_from_join ws :
  Forall is_word ws ->
  words_from (join " " ws) = match ws with [] => ("", []) | p :: ps => (p, ps) end.
Proof.
  induction 1 as [|p ps [Hne Hp] Hps IH]; [done|].
  destruct ps as [|q ps].
  - simpl. by apply words_from_word.
  - rewrite join_cons2, words_from_word_space by done. rewrite IH. simpl.
    inversion Hps as [|? ? [Hq _] _]; subst. by destruct q.
Qed.

(** Splitting what was joined from words gives the words back. *)
Lemma split_join ws : Forall is_word ws -> split (join " " ws) = ws.
Proof.
  intros H. unfold split. rewrite words_from_join by done.
  destruct H as [|p ps [Hne _] _]; [done|]. by destruct p.
Qed.

Lemma only_plain_spaces_app s t :
  only_plain_spaces (s +:+ t) = only_plain_spaces s && only_plain_spaces t.
Proof.
  induction s as [|c s IH]; [done|]. rewrite app_String. simpl.
  by rewrite IH, andb_assoc.
Qed.

Lemma word_only_plain w : no_space w = true -> only_plain_spaces w = true.
Proof.
  induction w as [|c w IH]; [done|]. simpl.
  intros [Hc Hw]%andb_true_iff. by rewrite Hc, (IH Hw).
Qed.

Lemma last_char_app s c t : last_char (s +:+ String c t) = last_char (String c t).
Proof.
  induction s as [|d s IH]; [done|]. rewrite app_String.
  change (last_char (String d (s +:+ String c t))) with
    (match s +:+ String c t with "" => Some d | _ => last_char (s +:+ String c t) end).
  rewrite IH. by destruct s.
Qed.

Lemma last_char_word w : w <> "" -> no_space w = true -> not_space_at (last_char w) = true.
Proof.
  induction w as [|c w IH]; [done|]. intros _ [Hc Hw]%andb_true_iff.
  destruct w as [|d w]; [done|]. by apply IH.
Qed.

Lemma no_adjacent_cons c s :
  is_space c = false -> no_adjacent_spaces (String c s) = no_adjacent_spaces s.
Proof. intros Hc. destruct s; simpl; [done|]. by rewrite Hc. Qed.

Lemma no_adjacent_word_app w t :
  no_space w = true -> no_adjacent_spaces t = true ->
  no_adjacent_spaces (w +:+ t) = true.
Proof.
  induction w as [|c w IH]; [done|]. intros [Hc Hw]%andb_true_iff Ht.
  rewrite app_String, no_adjacent_cons by by apply negb_true_iff.
  by apply IH.
Qed.

Lemma no_adjacent_word w : no_space w = true -> no_adjacent_spaces w = true.
Proof.
  induction w as [|c w IH]; [done|]. intros [Hc Hw]%andb_true_iff.
  rewrite no_adjacent_cons by by apply negb_true_iff. by apply IH.
Qed.

Lemma first_char_word w : w <> "" -> no_space w = true -> not_space_at (first_char w) = true.
Proof. destruct w; [done|]. simpl. by intros _ [? _]%andb_true_iff. Qed.

Lemma first_char_app w t : w <> "" -> first_char (w +:+ t) = first_char w.
Proof. by destruct w. Qed.

(** Words joined by single spaces have their white space collapsed. *)
Lemma join_collapsed ws : Forall is_word ws -> collapsed (join " " ws) = true.
Proof.
  induction 1 as [|p ps [Hne Hp] Hps IH]; [done|].
  destruct ps as [|q ps].
  - simpl. unfold collapsed, trimmed.
    by rewrite word_only_plain, first_char_word, last_char_word, no_adjacent_word.
  - rewrite join_cons2. revert IH. unfold collapsed, trimmed.
    rewrite !andb_true_iff. intros [[Ho Ha] [Hf Hl]].
    inversion Hps as [|? ? [Hq Hqs] _]; subst.
    pose proof (join_nonempty q ps Hq) as HJ.
    destruct (join " " (q :: ps)) as [|j J] eqn:E; [done|].
    repeat split.
    + rewrite only_plain_spaces_app, word_only_plain by done.
      simpl. simpl in Ho. by rewrite Ho.
    + apply no_adjacent_word_app; [done|].
      simpl in Hf. apply negb_true_iff in Hf.
      change (no_adjacent_spaces (String space (String j J)))
        with (negb (is_space space && is_space j) && no_adjacent_spaces (String j J)).
      by rewrite Hf, Ha.
    + rewrite first_char_app by done. by apply first_char_word.
    + by rewrite last_char_app.
Qed.

Lemma normalize_join_split s :
  Scrape_bios_playwright.normalize s = join " " (split s).
Proof.
  unfold Scrape_bios_playwright.normalize, split.
  rewrite words_from_replace_nbsp.
  apply strip_collapsed, join_collapsed, split_words.
Qed.

Lemma normalize_requests s :
  Scrape_bios_requests.normalize s = Scrape_bios_playwright.normalize s.
Proof.
  unfold Scrape_bios_requests.normalize. case_decide; [by subst|done].
Qed.

(** Normalizing twice changes nothing more. *)
Lemma normalize_idempotent s :
  Scrape_bios_playwright.normalize (Scrape_bios_playwright.normalize s)
  = Scrape_bios_playwright.normalize s.
Proof.
  rewrite !normalize_join_split. by rewrite split_join by apply split_words.
Qed.

Lemma all_space_words s : all_space s = true -> words_from s = ("", []).
Proof.
  induction s as [|c s IH]; [done|]. simpl.
  intros [Hc Hs]%andb_true_iff. by rewrite (IH Hs), Hc.
Qed.

Lemma split_nil s : split s = [] <-> all_space s = true.
Proof.
  split.
  - unfold split. induction s as [|c s IH]; [done|]. simpl.
    destruct (words_from s) as [w ws]. destruct (is_space c) eqn:Hc; simpl.
    + intros H. by rewrite IH.
    + done.
  - intros H. unfold split. by rewrite all_space_words.
Qed.

Lemma words_of_space_cons c s ws :
  is_space c = true -> words_of s ws -> words_of (String c s) ws.
Proof.
  intros Hc [g Hg|g w rest ws' Hg Hw Hrest Hws].
  - apply words_of_blank. simpl. by rewrite Hc.
  - rewrite <- app_String. apply words_of_word; [|done..]. simpl. by rewrite Hc.
Qed.

(** The scan splits a text into the word at its head and a rest that
    starts blank and holds the other words. *)
Lemma words_from_words_of s :
  exists r, s = (words_from s).1 +:+ r /\ blank_start r = true
            /\ words_of r (words_from s).2.
Proof.
  induction s as [|c s (r & Hs & Hr & Hws)].
  - exists "". split; [done|]. split; [done|]. by apply words_of_blank.
  - pose proof (words_from_spec s) as [Hw _].
    cbn [words_from]. destruct (words_from s) as [w ws]. cbn [fst snd] in *.
    destruct (is_space c) eqn:Hc; cbn [fst snd].
    + exists (String c s). split; [done|]. split; [done|].
      destruct w as [|d w]; cbn [cons_word].
      * rewrite app_empty in Hs. subst r. by apply words_of_space_cons.
      * rewrite Hs. change (String c (String d w +:+ r))
          with (String c "" +:+ String d w +:+ r).
        apply words_of_word; [|done..]. simpl. by rewrite Hc.
    + exists r. split; [|done]. by rewrite app_String, <- Hs.
Qed.

Lemma split_words_of s : words_of s (split s).
Proof.
  destruct (words_from_words_of s) as (r & Hs & Hr & Hws).
  pose proof (words_from_spec s) as [Hw _].
  unfold split. destruct (words_from s) as [w ws]. cbn [fst snd] in *.
  destruct w as [|d w]; cbn [cons_word].
  - by rewrite Hs, app_empty.
  - rewrite Hs. rewrite <- (app_empty (String d w +:+ r)).
    by apply words_of_word.
Qed.

Lemma split_space_cons c s : is_space c = true -> split (String c s) = split s.
Proof.
  intros Hc. unfold split. cbn [words_from]. destruct (words_from s) as [w ws].
  rewrite Hc. done.
Qed.

Lemma split_blank_app g s : all_space g = true -> split (g +:+ s) = split s.
Proof.
  induction g as [|c g IH]; [done|]. simpl. intros [Hc Hg]%andb_true_iff.
  rewrite app_String, split_space_cons by done. by apply IH.
Qed.

Lemma blank_start_words s : blank_start s = true -> words_from s = ("", split s).
Proof.
  destruct s as [|c s]; [done|]. simpl. intros Hc. unfold split. cbn [words_from].
  destruct (words_from s) as [w ws]. by rewrite Hc.
Qed.

Lemma words_from_word_app w s :
  no_space w = true ->
  words_from (w +:+ s) = (w +:+ (words_from s).1, (words_from s).2).
Proof.
  induction w as [|c w IH]; intros Hw.
  - rewrite !app_empty. by destruct (words_from s).
  - simpl in Hw. apply andb_true_iff in Hw as [Hc Hw].
    rewrite !app_String. cbn [words_from]. rewrite (IH Hw).
    apply negb_true_iff in Hc. by rewrite Hc.
Qed.

Lemma split_word_app w s :
  is_word w -> blank_start s = true -> split (w +:+ s) = w :: split s.
Proof.
  intros [Hne Hw] Hs. unfold split at 1.
  rewrite words_from_word_app, blank_start_words by done. cbn [fst snd].
  rewrite app_empty_r. by destruct w.
Qed.

(** A text has no other words than those the split gives. *)
Lemma words_of_split s ws : words_of s ws -> ws = split s.
Proof.
  induction 1 as [g Hg|g w rest ws Hg Hw Hrest Hws IH].
  - symmetry. by apply split_nil.
  - by rewrite split_blank_app, split_word_app, <- IH.
Qed.

Lemma join_single_spaced ws : join " " ws = single_spaced ws.
Proof.
  induction ws as [|w ws IH]; [done|].
  destruct ws as [|w' ws]; [done|].
  cbn [join single_spaced] in *. by rewrite IH.
Qed.

(** C9.  The field normalizer of either scraper is a total function of its
    input text (the two agree on every text).  Its result is the words of
    the input, the maximal runs of characters that are not white space,
    the non-breaking space counting as white space, with one ordinary
    space between neighbours: the input is white space, a word, white
    space, a word and so on, the words it is cut into are the only ones,
    and the result holds them in their order; the only white space left
    is the ordinary space, never two side by side, and none at either
    end. *)
Theorem C9_normalize_collapses_whitespace (s : string) :
  is_space nbsp = true
  /\ words_of s (split s)
  /\ (forall ws, words_of s ws -> ws = split s)
  /\ Scrape_bios_playwright.normalize s = single_spaced (split s)
  /\ collapsed (Scrape_bios_playwright.normalize s) = true
  /\ Scrape_bios_requests.normalize s = Scrape_bios_playwright.normalize s.
Proof.
  rewrite normalize_requests, normalize_join_split.
  split; [reflexivity|].
  split; [apply split_words_of|].
  split; [apply words_of_split|].
  split; [apply join_single_spaced|].
  split; [apply join_collapsed, split_words|done].
Qed.

Example normalize_example :
  Scrape_bios_playwright.normalize
    (String nbsp "  Jane" +:+ String nbsp (String "010"%char " Doe  "))
  = "Jane Doe".
Proof. reflexivity. Qed.

End Text.

(** ** The rows of [csv.DictReader] *)

Section Rows.
Import Csv Spec.

Lemma dict_set_keys key val d :
  (dict_set key val d).*1 = if decide (key ∈ d.*1) then d.*1 else d.*1 ++ [key].
Proof.
  induction d as [|[k v] d IH]; [done|]. cbn [dict_set].
  destruct (decide (key = k)) as [->|Hne].
  - rewrite decide_True by (rewrite fmap_cons; left). done.
  - rewrite !fmap_cons, IH. cbn [fst]. destruct (decide (key ∈ d.*1)) as [Hin|Hin].
    + rewrite decide_True by by right. done.
    + rewrite decide_False; [done|].
      intros [?|?]%elem_of_cons; done.
Qed.

Lemma dict_set_NoDup key val d : NoDup d.*1 -> NoDup (dict_set key val d).*1.
Proof.
  intros Hd. rewrite dict_set_keys. case_decide; [done|].
  apply NoDup_app. split; [done|]. split; [|apply NoDup_singleton].
  intros x Hx ->%list_elem_of_singleton. done.
Qed.

Lemma zip_fields_NoDup fieldnames line d :
  NoDup d.*1 -> NoDup (zip_fields fieldnames line d).*1.
Proof.
  revert line d. induction fieldnames as [|f fs IH]; intros [|c cs] d Hd; try done.
  cbn [zip_fields]. by apply IH, dict_set_NoDup.
Qed.

Lemma fill_missing_NoDup names d :
  NoDup d.*1 -> NoDup (fold_left (fun d key => dict_set key None d) names d).*1.
Proof.
  revert d. induction names as [|k names IH]; intros d Hd; [done|].
  cbn [fold_left]. by apply IH, dict_set_NoDup.
Qed.

Lemma fields_keys (d : list (string * option string)) :
  keys (uncurry Field <$> d) = Some <$> d.*1.
Proof.
  unfold keys. rewrite <- !list_fmap_compose. apply list_fmap_ext.
  by intros i [k v] _.
Qed.

Lemma fields_no_rest (d : list (string * option string)) :
  has_rest (uncurry Field <$> d) = false.
Proof. induction d as [|[k v] d IH]; [done|]. exact IH. Qed.

(** The keys of a row of the reader are distinct. *)
Lemma next_row_NoDup fieldnames line : NoDup (keys (next_row fieldnames line)).
Proof.
  unfold next_row. case_match.
  - unfold keys. rewrite fmap_app. fold (keys (uncurry Field <$> zip_fields fieldnames line [])).
    rewrite fields_keys. apply NoDup_app. split.
    + apply (NoDup_fmap_2 _). apply zip_fields_NoDup. constructor.
    + split.
      * intros x (k & -> & _)%list_elem_of_fmap Hin.
        destruct (drop (length fieldnames) line); [by apply elem_of_nil in Hin|].
        by apply list_elem_of_singleton in Hin.
      * destruct (drop (length fieldnames) line); [constructor|apply NoDup_singleton].
  - rewrite fields_keys. apply (NoDup_fmap_2 _).
    apply fill_missing_NoDup, zip_fields_NoDup. constructor.
Qed.

(** A row holds the [restkey] entry exactly when its line is longer than
    the header. *)
Lemma next_row_has_rest fieldnames line :
  has_rest (next_row fieldnames line) = (length fieldnames <? length line)%nat.
Proof.
  unfold next_row. destruct (length fieldnames <? length line)%nat eqn:E.
  - unfold has_rest. rewrite existsb_app. apply orb_true_iff. right.
    apply Nat.ltb_lt in E.
    destruct (drop (length fieldnames) line) eqn:Hd; [|done].
    apply (f_equal length) in Hd. rewrite length_drop in Hd. simpl in Hd. lia.
  - apply fields_no_rest.
Qed.

Lemma DictReader_NoDup file row : row ∈ DictReader file -> NoDup (keys row).
Proof.
  destruct file as [|fieldnames lines]; [by intros ?%elem_of_nil|].
  cbn [DictReader]. intros (line & -> & _)%list_elem_of_fmap.
  apply next_row_NoDup.
Qed.

End Rows.

(** ** The coercer *)

Section CoercerFacts.
Import Py Csv Models Db_loader Spec.
Context {float : Type} (float_of_str : string -> option float).

Lemma int_fields_spec key :
  key ∈ int_fields <->
  key ∈ ["GP"; "G"; "A"; "PTS"; "SH"; "plus_minus"; "PPG"; "SHG"; "FG";
         "GWG"; "GTG"; "OTG"; "HTG"; "UAG"; "MIN"; "MAJ"; "OTH"; "BLK"; "Number"].
Proof. unfold int_fields. by rewrite elem_of_list_to_set. Qed.

Lemma int_fields_declared key : key ∈ int_fields -> key ∈ Stats_fields.
Proof.
  rewrite int_fields_spec. intros Hk.
  repeat (apply elem_of_cons in Hk as [->|Hk]; [by_computation|]).
  by apply elem_of_nil in Hk.
Qed.

Lemma empty_or_missing_unparsable : unparsable None /\ unparsable (Some "").
Proof. split; [by exists TypeError|by exists ValueError]. Qed.

(** The integer coercion never raises, and gives [None], not zero, where
    [int] rejects the cell. *)
Lemma coerce_int_unparsable v : unparsable v -> _coerce_int v = None.
Proof. intros [e He]. unfold _coerce_int. by rewrite He. Qed.

Lemma coerce_int_parsed v z : int v = Ok z -> _coerce_int v = Some z.
Proof. intros H. unfold _coerce_int. by rewrite H. Qed.

Lemma find_field_elem row key val :
  find_field row key = Some val -> Field key val ∈ row.
Proof.
  induction row as [|[k v|? ?] row IH]; simpl; [done| |].
  - case_decide; [intros [= ->]; subst; left|intros Hf; right; auto].
  - intros Hf. right. auto.
Qed.

Lemma find_field_None row key val :
  find_field row key = None -> Field key val ∉ row.
Proof.
  induction row as [|[k v|? ?] row IH]; simpl; intros H Hin.
  - by apply elem_of_nil in Hin.
  - case_decide; [done|].
    apply elem_of_cons in Hin as [[= -> ->]|Hin]; [done|by apply IH].
  - apply elem_of_cons in Hin as [?|Hin]; [done|by apply IH].
Qed.

Lemma find_field_complete row key val :
  NoDup (keys row) -> Field key val ∈ row -> find_field row key = Some val.
Proof.
  induction row as [|it row IH]; intros Hnd Hin; [by apply elem_of_nil in Hin|].
  unfold keys in Hnd. rewrite fmap_cons in Hnd. apply NoDup_cons in Hnd as [Hnot Hnd].
  apply elem_of_cons in Hin as [<-|Hin].
  - simpl. by rewrite decide_True.
  - destruct it as [k v|? ?]; simpl; [|by apply IH].
    rewrite decide_False; [by apply IH|].
    intros ->. apply Hnot. apply list_elem_of_fmap. by exists (Field k val).
Qed.

Lemma find_field_absent row key : Some key ∉ keys row -> find_field row key = None.
Proof.
  induction row as [|[k v|? ?] row IH]; [done| |].
  - unfold keys. rewrite fmap_cons, not_elem_of_cons. intros [Hne Hnot].
    simpl. rewrite decide_False by (by intros ->). by apply IH.
  - unfold keys. rewrite fmap_cons, not_elem_of_cons. intros [_ Hnot]. by apply IH.
Qed.

Lemma stats_item_Field (kw : gmap string (value float)) key val :
  stats_item float_of_str kw (Field key val)
  = Ok (write float_of_str kw (Field key val)).
Proof.
  unfold stats_item, write, target, coerced.
  repeat case_decide; done.
Qed.

(** Without a [restkey] entry the loop runs to its end. *)
Lemma stats_items_no_rest (kw : gmap string (value float)) items :
  has_rest items = false ->
  stats_items float_of_str kw items = Ok (fold_left (write float_of_str) items kw).
Proof.
  revert kw. induction items as [|it items IH]; intros kw H; [done|].
  destruct it as [key val|v vs]; [|done].
  cbn [stats_items]. rewrite stats_item_Field. cbn [bind fold_left].
  apply IH. exact H.
Qed.

(** With one it raises. *)
Lemma stats_items_rest (kw : gmap string (value float)) items :
  has_rest items = true ->
  stats_items float_of_str kw items = Raise AttributeError.
Proof.
  revert kw. induction items as [|it items IH]; intros kw H; [done|].
  destruct it as [key val|v vs]; [|done].
  cbn [stats_items]. rewrite stats_item_Field. cbn [bind]. apply IH. exact H.
Qed.

Lemma write_untouched (kw : gmap string (value float)) items f :
  Forall (fun it => ¬ feeds f it) items ->
  fold_left (write float_of_str) items kw !! f = kw !! f.
Proof.
  revert kw. induction items as [|it items IH]; intros kw H; [done|].
  inversion H as [|? ? Hit Hitems]; subst. cbn [fold_left]. rewrite IH by done.
  destruct it as [key val|v vs]; [|done]. simpl in *.
  destruct (target key) as [g|]; [|done].
  rewrite lookup_insert_ne; [done|congruence].
Qed.

Lemma write_last (kw : gmap string (value float)) pre key val post f :
  target key = Some f ->
  Forall (fun it => ¬ feeds f it) post ->
  fold_left (write float_of_str) (pre ++ Field key val :: post) kw !! f
  = Some (coerced float_of_str key val).
Proof.
  intros Ht Hpost. rewrite fold_left_app. cbn [fold_left].
  rewrite write_untouched by done. simpl. rewrite Ht. apply lookup_insert_eq.
Qed.

(** Only the column [PN-PIM] is stored under another name than its own. *)
Lemma target_own key f : target key = Some f -> f ≠ "PN_PIM" -> key = f.
Proof. unfold target. repeat case_decide; intros [= <-]; done. Qed.

Lemma target_of_own key :
  key ∉ ["Number"; "FirstName"; "LastName"] -> key ≠ "PN-PIM" -> target key = Some key.
Proof. intros. unfold target. by repeat case_decide. Qed.

Lemma unique_feed (row : Row) key val f :
  NoDup (keys row) -> Field key val ∈ row -> target key = Some f -> f ≠ "PN_PIM" ->
  exists pre post, row = pre ++ Field key val :: post
    /\ Forall (fun it => ¬ feeds f it) post.
Proof.
  intros Hnd Hin Ht Hf.
  apply list_elem_of_split in Hin as (pre & post & ->).
  exists pre, post. split; [done|].
  pose proof (target_own _ _ Ht Hf) as ->.
  unfold keys in Hnd. rewrite fmap_app, fmap_cons in Hnd.
  apply NoDup_app in Hnd as (_ & _ & Hnd').
  apply NoDup_cons in Hnd' as [Hnot _].
  apply Forall_forall. intros it Hit Hfeeds.
  destruct it as [k v|? ?]; [|done]. simpl in Hfeeds.
  apply target_own in Hfeeds; [|done]. subst k.
  apply Hnot. apply list_elem_of_fmap. by exists (Field f v).
Qed.

Lemma no_feed_absent (row : Row) f :
  f ≠ "PN_PIM" -> find_field row f = None ->
  Forall (fun it => ¬ feeds f it) row.
Proof.
  intros Hf Hnone. apply Forall_forall. intros it Hit Hfeeds.
  destruct it as [k v|? ?]; [|done]. simpl in Hfeeds.
  apply target_own in Hfeeds; [|done]. subst k.
  by apply (find_field_None _ _ v) in Hnone.
Qed.

Lemma no_feed_skipped (row : Row) f :
  f ∈ ["Number"; "FirstName"; "LastName"] ->
  Forall (fun it => ¬ feeds f it) row.
Proof.
  intros Hf. apply Forall_forall. intros it Hit Hfeeds.
  destruct it as [k v|? ?]; [|done]. simpl in Hfeeds.
  assert (f ≠ "PN_PIM") as Hne.
  { intros ->. revert Hf. refute_by_computation. }
  pose proof (target_own _ _ Hfeeds Hne) as ->.
  unfold target in Hfeeds. by case_decide.
Qed.

Lemma Stats_new_lookup (kw : gmap string (value float)) f :
  f ∈ Stats_fields -> Stats_new kw !! f = Some (default VNone (kw !! f)).
Proof.
  intros Hf. unfold Stats_new. apply elem_of_list_to_map_1.
  - rewrite <- list_fmap_compose.
    unfold Stats_fields. by_computation.
  - apply list_elem_of_fmap. by exists f.
Qed.

Lemma Stats_new_undeclared (kw : gmap string (value float)) f :
  f ∉ Stats_fields -> Stats_new kw !! f = None.
Proof.
  intros Hf. unfold Stats_new. apply not_elem_of_list_to_map_1.
  rewrite <- list_fmap_compose. by intros (g & -> & Hg)%list_elem_of_fmap.
Qed.

Lemma stats_kw_cases row :
  stats_kw float_of_str row
  = if has_rest row then Raise AttributeError
    else Ok (fold_left (write float_of_str) row (first_keywords row)).
Proof.
  unfold stats_kw. fold (first_keywords (float:=float) row).
  destruct (has_rest row) eqn:E.
  - by apply stats_items_rest.
  - by apply stats_items_no_rest.
Qed.

Lemma first_keywords_lookup row f :
  first_keywords row !! f
  = if decide (f ∈ ["Number"; "FirstName"; "LastName"])
    then Some (stats_expected float_of_str row f) else None.
Proof.
  unfold first_keywords, stats_expected.
  destruct (decide (f = "LastName")) as [->|H1]; [by rewrite lookup_insert_eq|].
  rewrite lookup_insert_ne by done.
  destruct (decide (f = "FirstName")) as [->|H2]; [by rewrite lookup_insert_eq|].
  rewrite lookup_insert_ne by done.
  destruct (decide (f = "Number")) as [->|H3]; [by rewrite lookup_insert_eq|].
  rewrite lookup_insert_ne, lookup_empty by done.
  rewrite decide_False; [done|].
  rewrite !elem_of_cons, elem_of_nil. tauto.
Qed.

(** What the keywords hold after the loop, for every keyword but [PN_PIM]. *)
Lemma written_lookup row f :
  NoDup (keys row) -> f ≠ "PN_PIM" -> f ≠ "PN-PIM" ->
  fold_left (write float_of_str) row (first_keywords row) !! f
  = if decide (f ∈ ["Number"; "FirstName"; "LastName"])
    then Some (stats_expected float_of_str row f)
    else coerced float_of_str f <$> find_field row f.
Proof.
  intros Hnd Hf Hf'. case_decide as Hskip.
  - rewrite write_untouched by by apply no_feed_skipped.
    rewrite first_keywords_lookup. by rewrite decide_True.
  - destruct (find_field row f) as [val|] eqn:E; simpl.
    + apply find_field_elem in E.
      destruct (unique_feed row f val f Hnd E) as (pre & post & -> & Hpost);
        [by apply target_of_own|done|].
      by apply write_last; [apply target_of_own|].
    + rewrite write_untouched by by apply no_feed_absent.
      rewrite first_keywords_lookup. by rewrite decide_False.
Qed.

(** What the fields of the record hold, for every field but [PN_PIM]. *)
Lemma record_lookup row f :
  NoDup (keys row) -> f ∈ Stats_fields -> f ≠ "PN_PIM" ->
  Stats_new (fold_left (write float_of_str) row (first_keywords row)) !! f
  = Some (stats_expected float_of_str row f).
Proof.
  intros Hnd Hf Hne. rewrite Stats_new_lookup by done. f_equal.
  rewrite written_lookup; [|done..|].
  - unfold stats_expected. case_decide as Hskip; [done|].
    rewrite decide_False, decide_False; [by destruct (find_field row f)| |].
    + intros Hin. apply Hskip. by right.
    + intros ->. apply Hskip. by left.
  - intros ->. revert Hf. refute_by_computation.
Qed.

(** The stats pass coerces every row that holds no cell beyond its header. *)
Lemma stats_pass_total rows :
  Forall (fun row => has_rest row = false) rows ->
  exists stats, stats_rows float_of_str rows = Ok stats /\ length stats = length rows.
Proof.
  induction 1 as [|row rows Hrow _ (stats & Hstats & Hlen)]; [by exists []|].
  cbn [stats_rows]. unfold make_stats_row. rewrite stats_kw_cases, Hrow.
  cbn [bind]. rewrite Hstats. cbn [bind]. eexists. split; [done|]. simpl. by rewrite Hlen.
Qed.

(** A row with such a cell leaves the pass without any record. *)
Lemma stats_pass_aborts rows :
  Exists (fun row => has_rest row = true) rows ->
  stats_rows float_of_str rows = Raise AttributeError.
Proof.
  induction rows as [|row rows IH]; intros Hex; [by apply Exists_nil in Hex|].
  cbn [stats_rows]. unfold make_stats_row. rewrite stats_kw_cases.
  destruct (has_rest row) eqn:E; [done|]. cbn [bind].
  apply Exists_cons in Hex as [Hex|Hex]; [congruence|].
  by rewrite IH.
Qed.

(** On a file none of whose lines is longer than its header, the stats
    pass gives one record for each line that is not blank. *)
Lemma stats_file_coerced fieldnames lines :
  Forall (fun line => length line <= length fieldnames) lines ->
  exists stats, make_stats_instances float_of_str (fieldnames :: lines) = Ok stats
                /\ length stats = length (filter (fun l => l <> []) lines).
Proof.
  intros Hlines. unfold make_stats_instances. cbn [DictReader].
  destruct (stats_pass_total (next_row fieldnames <$> filter (fun l => l <> []) lines))
    as (stats & Hstats & Hlen).
  - apply Forall_fmap, Forall_forall. intros line [_ Hin]%list_elem_of_filter.
    rewrite Forall_forall in Hlines. cbn. rewrite next_row_has_rest.
    apply Nat.ltb_ge. by apply Hlines.
  - exists stats. split; [done|]. by rewrite Hlen, length_fmap.
Qed.

(** A single line longer than the header makes the pass raise. *)
Lemma stats_file_aborted fieldnames lines line :
  line ∈ lines -> length fieldnames < length line ->
  make_stats_instances float_of_str (fieldnames :: lines) = Raise AttributeError.
Proof.
  intros Hin Hlong. unfold make_stats_instances. cbn [DictReader].
  apply stats_pass_aborts, Exists_exists. exists (next_row fieldnames line). split.
  - apply list_elem_of_fmap_2, list_elem_of_filter. split; [|done].
    intros ->. simpl in Hlong. lia.
  - rewrite next_row_has_rest. by apply Nat.ltb_lt.
Qed.

Lemma int_field_not_name key :
  key ∈ int_fields -> key ∉ ["FirstName"; "LastName"].
Proof.
  intros Hkey Hin.
  apply elem_of_cons in Hin as [->|Hin]; [revert Hkey; refute_by_computation|].
  apply elem_of_cons in Hin as [->|Hin]; [revert Hkey; refute_by_computation|].
  by apply elem_of_nil in Hin.
Qed.

Lemma number_cell_bad row :
  bad_int_cell (find_field row "Number") ->
  _coerce_int (get_default row "Number" "") = None.
Proof.
  unfold get_default, bad_int_cell. destruct (find_field row "Number") as [v|].
  - apply coerce_int_unparsable.
  - intros _. apply coerce_int_unparsable, empty_or_missing_unparsable.
Qed.

(** What holds of a bad integer cell.  For every row and every column of
    the integer set of either schema: if the row has no such column, or
    the cell under it is missing, empty, or a text [int] rejects, then the
    integer coercion returns [None] without raising.  The bio pass builds
    the record, with [None] for the number.  The stats pass builds the
    record, with [None] for the field, when the row has no cell beyond the
    header; when it has one the pass raises. *)
Lemma bad_integer_cell_gives_None (row : Row) (key : string) :
  NoDup (keys row) -> key ∈ int_fields -> bad_int_cell (find_field row key) ->
  (unparsable None /\ unparsable (Some ""))
  /\ (forall v, unparsable v -> _coerce_int v = None)
  /\ (key = "Number" ->
      Number (make_bio_row row) = None
      /\ Forall (fun name =>
           Bio_str name (make_bio_row row)
           = Some (Some (strip (or_empty (get row name))))) bio_string_fields)
  /\ match make_stats_row float_of_str row with
     | Ok stat =>
         stat !! key = Some VNone
         /\ forall f, f ∈ Stats_fields -> f ≠ "PN_PIM" ->
              stat !! f = Some (stats_expected float_of_str row f)
     | Raise e => e = AttributeError /\ has_rest row = true
     end.
Proof.
  intros Hnd Hkey Hbad.
  assert (stats_expected float_of_str row key = VNone) as Hnone.
  { unfold stats_expected. case_decide as Hnum.
    - subst key. by rewrite number_cell_bad.
    - rewrite decide_False by by apply int_field_not_name.
      destruct (find_field row key) as [v|]; [|done]. simpl in Hbad.
      unfold coerced. rewrite decide_False, decide_True by
        first [done | intros ->; revert Hkey; refute_by_computation].
      by rewrite coerce_int_unparsable. }
  split; [apply empty_or_missing_unparsable|].
  split; [apply coerce_int_unparsable|].
  split.
  - intros ->. split.
    + by apply number_cell_bad.
    + unfold bio_string_fields. repeat constructor.
  - unfold make_stats_row. rewrite stats_kw_cases.
    destruct (has_rest row); [done|]. cbn [bind]. split.
    + rewrite record_lookup, Hnone; [done..|by apply int_fields_declared|].
      intros ->. revert Hkey. refute_by_computation.
    + intros f Hf Hne. by apply record_lookup.
Qed.

(** C1, at the failing input.  In the stats file whose second data line
    is [9,John,Roe,x,] the cell under [GP], a column of the integer set,
    is a text [int] rejects, and its coercion gives [None] without raising;
    yet the row is not produced: the cell beyond the header makes the loop
    raise [AttributeError], for the row and so for the whole pass.  The bio
    pass builds its record of the same row. *)
Theorem C1_bad_integer_cell_on_long_line :
  Inputs.trailing_comma_row ∈ DictReader Inputs.trailing_comma_csv
  /\ "GP" ∈ int_fields
  /\ Field "GP" (Some "x") ∈ Inputs.trailing_comma_row
  /\ int (Some "x") = Raise ValueError
  /\ _coerce_int (Some "x") = None
  /\ make_stats_row float_of_str Inputs.trailing_comma_row = Raise AttributeError
  /\ make_stats_instances float_of_str Inputs.trailing_comma_csv = Raise AttributeError
  /\ Number (make_bio_row Inputs.trailing_comma_row) = Some 9%Z.
Proof.
  split; [right; left|].
  split; [by_computation|].
  split; [unfold Inputs.trailing_comma_row; rewrite !elem_of_cons; auto 10|].
  repeat split; reflexivity.
Qed.

(** C2.  For every row of a file read by the bio pass, every string field
    of the record holds a text, never [None]: the cell the row has under
    the name of the field, stripped of leading and trailing white space,
    and the empty text when the cell is [None] (a short line) or the file
    has no column of that name.  Stripping takes white space off the two
    ends of a text and leaves the rest as it is. *)
Theorem C2_bio_string_fields_stripped
    (file : list (list string)) (row : Row) (name : string) :
  row ∈ DictReader file -> name ∈ bio_string_fields ->
  (forall s, Field name (Some s) ∈ row ->
     Bio_str name (make_bio_row row) = Some (Some (strip s)))
  /\ (Field name None ∈ row -> Bio_str name (make_bio_row row) = Some (Some ""))
  /\ (Some name ∉ keys row -> Bio_str name (make_bio_row row) = Some (Some ""))
  /\ (exists t, Bio_str name (make_bio_row row) = Some (Some t) /\ trimmed t = true)
  /\ (forall s, exists l r,
        s = l +:+ strip s +:+ r
        /\ all_space l = true /\ all_space r = true /\ trimmed (strip s) = true).
Proof.
  intros Hrow%DictReader_NoDup Hname.
  assert (Bio_str name (make_bio_row row)
          = Some (Some (strip (or_empty (get row name))))) as Hfield.
  { revert Hname. unfold bio_string_fields. rewrite !elem_of_cons, elem_of_nil.
    intros [->|[->|[->|[->|[->|[->|[->|[->|[->|[]]]]]]]]]]; reflexivity. }
  rewrite Hfield. unfold get.
  split; [|split; [|split; [|split]]].
  - intros s Hin. by rewrite (find_field_complete _ _ _ Hrow Hin).
  - intros Hin. by rewrite (find_field_complete _ _ _ Hrow Hin).
  - intros Hnot. by rewrite find_field_absent.
  - eexists. split; [done|].
    by destruct (strip_spec (or_empty match find_field row name with
                                      | Some v => v | None => None end))
      as (? & ? & _ & _ & _ & ?).
  - apply strip_spec.
Qed.

(** C3 as amended.  For every stats row that has the column [PN-PIM] and
    no column named [PN_PIM] after it: the keywords, and the record built
    from them, hold under [PN_PIM] the stripped text of that cell, as a
    text and not a number, and nothing under [PN-PIM]; the pass raises only
    for a cell beyond the header.  In the loop [PN-PIM] is the one column
    stored under another name than its own: any other column is skipped
    or stored under its header name. *)
Theorem C3_PN_PIM_renamed (pre post : Row) (v : option string) :
  NoDup (keys (pre ++ Field "PN-PIM" v :: post)) ->
  Some "PN_PIM" ∉ keys post ->
  match stats_kw float_of_str (pre ++ Field "PN-PIM" v :: post) with
  | Ok kw =>
      kw !! "PN_PIM" = Some (VStr (strip (or_empty v)))
      /\ Stats_new kw !! "PN_PIM" = Some (VStr (strip (or_empty v)))
      /\ kw !! "PN-PIM" = None
  | Raise _ => has_rest (pre ++ Field "PN-PIM" v :: post) = true
  end
  /\ (forall kw val,
        stats_item float_of_str kw (Field "PN-PIM" val)
        = Ok (<["PN_PIM" := VStr (strip (or_empty val))]> kw))
  /\ (forall kw key val, key ≠ "PN-PIM" ->
        stats_item float_of_str kw (Field key val) = Ok kw
        \/ stats_item float_of_str kw (Field key val)
           = Ok (<[key := coerced float_of_str key val]> kw)).
Proof.
  intros Hnd Hpost. split; [|split].
  - rewrite stats_kw_cases.
    destruct (has_rest (pre ++ Field "PN-PIM" v :: post)); [done|].
    assert (Forall (fun it => ¬ feeds "PN_PIM" it) post) as Hfeed.
    { apply Forall_forall. intros it Hit Hfeeds.
      destruct it as [k val|? ?]; [|done]. simpl in Hfeeds.
      assert (Some k ∈ keys post) as Hk.
      { apply list_elem_of_fmap. by exists (Field k val). }
      unfold target in Hfeeds. repeat case_decide; try done.
      - subst k. unfold keys in Hnd. rewrite fmap_app, fmap_cons in Hnd.
        apply NoDup_app in Hnd as (_ & _ & Hnd).
        by apply NoDup_cons in Hnd as [Hnot _].
      - injection Hfeeds as ->. done. }
    assert (fold_left (write float_of_str) (pre ++ Field "PN-PIM" v :: post)
              (first_keywords (pre ++ Field "PN-PIM" v :: post)) !! "PN_PIM"
            = Some (VStr (strip (or_empty v)))) as Hkw.
    { by rewrite (write_last _ pre "PN-PIM" v post "PN_PIM"). }
    split; [done|split].
    + rewrite Stats_new_lookup by by_computation. by rewrite Hkw.
    + rewrite write_untouched, first_keywords_lookup; [done|].
      apply Forall_forall. intros it _ Hfeeds.
      destruct it as [k val|? ?]; [|done]. simpl in Hfeeds.
      assert (k = "PN-PIM") as -> by by apply target_own in Hfeeds.
      by vm_compute in Hfeeds.
  - intros kw val. by rewrite stats_item_Field.
  - intros kw key val Hkey. rewrite stats_item_Field. unfold write, target.
    repeat case_decide; first [done | by left | by right].
Qed.

(** The later of the two spellings is the one the keywords keep. *)
Lemma later_PN_PIM_column_wins :
  exists kw, stats_kw float_of_str Inputs.both_spellings = Ok kw
             /\ kw !! "PN_PIM" = Some (VStr "x").
Proof. eexists. split; [reflexivity|]. by vm_compute. Qed.

(** C4, at the failing input.  A stats file whose second data line ends
    with a comma holds one cell more than the header names: the reader
    stores it under the key [None], the loop reaches [strip] on that list,
    and the pass raises [AttributeError] with no record at all, the one of
    the well-formed first line included.  The bio pass reads the same file
    without raising. *)
Theorem C4_surplus_cell_aborts_stats_pass :
  DictReader Inputs.trailing_comma_csv
  = [[Field "Number" (Some "7"); Field "FirstName" (Some "Jane");
      Field "LastName" (Some "Doe"); Field "GP" (Some "12")];
     [Field "Number" (Some "9"); Field "FirstName" (Some "John");
      Field "LastName" (Some "Roe"); Field "GP" (Some "x"); Rest "" []]]
  /\ make_stats_instances float_of_str Inputs.trailing_comma_csv = Raise AttributeError
  /\ length (make_bio_instances Inputs.trailing_comma_csv) = 2.
Proof. repeat split; reflexivity. Qed.

End CoercerFacts.

Section CoercerInstances.
Import Py Csv Models Db_loader Spec.

Example bad_integer_cell_example :
  exists stat, make_stats_row no_floats Inputs.stats_row = Ok stat
       /\ stat !! "GP" = Some VNone /\ stat !! "G" = Some (VInt 3).
Proof.
  assert (NoDup (keys Inputs.stats_row)) as H1 by by_computation.
  assert ("GP" ∈ int_fields) as H2 by by_computation.
  assert (bad_int_cell (find_field Inputs.stats_row "GP")) as H3
    by by exists ValueError.
  pose proof (bad_integer_cell_gives_None no_floats Inputs.stats_row "GP" H1 H2 H3)
    as (_ & _ & _ & H).
  destruct (make_stats_row no_floats Inputs.stats_row) as [stat|e].
  - destruct H as [HGP Hall]. exists stat. repeat split; [done|].
    rewrite Hall; [done|by_computation|done].
  - by destruct H.
Qed.

Lemma C2_witness :
  Inputs.stats_row ∈ DictReader Inputs.stats_csv
  /\ "FirstName" ∈ bio_string_fields
  /\ Bio_str "FirstName" (make_bio_row Inputs.stats_row) = Some (Some "Jane").
Proof.
  assert (Inputs.stats_row ∈ DictReader Inputs.stats_csv) as Hrow by left.
  assert ("FirstName" ∈ bio_string_fields) as Hname by by_computation.
  split; [done|]. split; [done|].
  destruct (C2_bio_string_fields_stripped Inputs.stats_csv Inputs.stats_row
              "FirstName" Hrow Hname) as [H _].
  apply (H " Jane"). unfold Inputs.stats_row. rewrite !elem_of_cons. auto 10.
Defined.

Lemma C3_witness :
  NoDup (keys Inputs.stats_row)
  /\ exists kw, stats_kw no_floats Inputs.stats_row = Ok kw
       /\ kw !! "PN_PIM" = Some (VStr "5").
Proof.
  assert (NoDup (keys Inputs.stats_row)) as H1 by by_computation.
  split; [done|].
  pose proof (C3_PN_PIM_renamed no_floats
    [Field "Number" (Some "x"); Field "FirstName" (Some " Jane");
     Field "LastName" (Some "Doe "); Field "GP" (Some ""); Field "G" (Some "3")]
    [] (Some "5") H1 (not_elem_of_nil _)) as [H _].
  change (_ ++ _) with Inputs.stats_row in H.
  destruct (stats_kw no_floats Inputs.stats_row) as [kw|e]; [|done].
  exists kw. by destruct H as [-> _].
Defined.

(** C3, as stated, fails: with the header spelled both ways
    ([FirstName,LastName,PN-PIM,PN_PIM]) and the line [Jane,Doe,5,x], the
    keyword [PN_PIM] ends up holding ["x"], the cell of the later column,
    and not ["5"], the cell of [PN-PIM]. *)
Lemma C3_counterexample :
  ~ (forall (float : Type) (float_of_str : string -> option float)
            (row : Row) (v : option string) (kw : gmap string (value float)),
       NoDup (keys row) -> Field "PN-PIM" v ∈ row ->
       stats_kw float_of_str row = Ok kw ->
       kw !! "PN_PIM" = Some (VStr (strip (or_empty v)))).
Proof.
  intros H.
  destruct (later_PN_PIM_column_wins no_floats) as (kw & Hkw & Hx).
  specialize (H _ no_floats Inputs.both_spellings (Some "5") kw).
  rewrite Hx in H. discriminate H; [by_computation| |done].
  unfold Inputs.both_spellings. rewrite !elem_of_cons. auto.
Qed.

End CoercerInstances.

(** ** The profile extractors *)

Section Extractors.
Import Py Dom Spec.

Lemma set_field_requests data dl :
  Scrape_bios_requests.set_field data dl = Scrape_bios_playwright.set_field data dl.
Proof.
  unfold Scrape_bios_requests.set_field, Scrape_bios_playwright.set_field.
  destruct (dt dl), (dd dl); try done. by rewrite !normalize_requests.
Qed.

Lemma fold_set_field_requests fields data :
  fold_left Scrape_bios_requests.set_field fields data
  = fold_left Scrape_bios_playwright.set_field fields data.
Proof.
  revert data. induction fields as [|dl fields IH]; intros data; [done|].
  simpl. by rewrite set_field_requests, IH.
Qed.

(** The loop over the label/value pairs leaves the number and the three
    name fields alone. *)
Lemma set_field_name_fields data dl k :
  k ∈ ["Number"; "Player"; "FirstName"; "LastName"] ->
  Scrape_bios_playwright.set_field data dl !! k = data !! k.
Proof.
  intros Hk. unfold Scrape_bios_playwright.set_field.
  destruct (dt dl), (dd dl); try done.
  repeat case_match; try done;
    (rewrite lookup_insert_ne; [done|]); intros <-; revert Hk; refute_by_computation.
Qed.

Lemma fold_set_field_name_fields fields data k :
  k ∈ ["Number"; "Player"; "FirstName"; "LastName"] ->
  fold_left Scrape_bios_playwright.set_field fields data !! k = data !! k.
Proof.
  intros Hk. revert data. induction fields as [|dl fields IH]; intros data; [done|].
  simpl. by rewrite IH, set_field_name_fields.
Qed.

Lemma first_char_join p ps :
  p <> "" -> first_char (join " " (p :: ps)) = first_char p.
Proof.
  intros Hp. destruct ps; [done|]. rewrite join_cons2. by apply first_char_app.
Qed.

Lemma last_char_nonempty l : l <> "" -> last_char l <> None.
Proof.
  induction l as [|c l IH]; [done|]. intros _.
  destruct l as [|d l]; [done|]. by apply IH.
Qed.

Lemma last_char_join ps l :
  last ps = Some l -> l <> "" -> last_char (join " " ps) = last_char l.
Proof.
  intros Hl Hne. induction ps as [|p ps IH]; [done|].
  destruct ps as [|q ps]; [by injection Hl as ->|].
  rewrite join_cons2. specialize (IH Hl).
  destruct (join " " (q :: ps)) as [|j J].
  - by destruct (last_char_nonempty l Hne).
  - rewrite last_char_app. exact IH.
Qed.

Lemma normalize_trimmed s : trimmed (Scrape_bios_playwright.normalize s) = true.
Proof.
  rewrite normalize_join_split.
  pose proof (join_collapsed (split s) (split_words s)) as H.
  unfold collapsed in H. by apply andb_true_iff in H as [_ H].
Qed.

(** Stripping the joined parts changes nothing when the first and the
    last part have text. *)
Lemma strip_join_normalized texts first_part last_part :
  head (Scrape_bios_playwright.normalize <$> texts) = Some first_part ->
  last (Scrape_bios_playwright.normalize <$> texts) = Some last_part ->
  first_part <> "" -> last_part <> "" ->
  strip (join " " (Scrape_bios_playwright.normalize <$> texts))
  = join " " (Scrape_bios_playwright.normalize <$> texts).
Proof.
  intros Hh Hl Hf Hla. apply strip_trimmed. unfold trimmed.
  rewrite (last_char_join _ _ Hl Hla).
  destruct texts as [|t texts]; [done|]. simpl in Hh. injection Hh as Hh.
  rewrite fmap_cons, first_char_join by by rewrite Hh.
  rewrite fmap_last in Hl.
  destruct (last (t :: texts)) as [t'|]; [|done]. injection Hl as <-.
  pose proof (normalize_trimmed t) as H1. pose proof (normalize_trimmed t') as H2.
  unfold trimmed in H1, H2.
  apply andb_true_iff in H1 as [H1 _]. apply andb_true_iff in H2 as [_ H2].
  by rewrite H1, H2.
Qed.

Lemma playwright_name_fields page el :
  player_name page = Some el ->
  Scrape_bios_playwright.extract_from_profile page !! "Player"
  = Some (strip (join " " (Scrape_bios_playwright.normalize <$> name_spans el)))
  /\ (name_spans el <> [] ->
      Scrape_bios_playwright.extract_from_profile page !! "FirstName"
      = head (Scrape_bios_playwright.normalize <$> name_spans el)
      /\ Scrape_bios_playwright.extract_from_profile page !! "LastName"
      = last (Scrape_bios_playwright.normalize <$> name_spans el)).
Proof.
  intros Hel. unfold Scrape_bios_playwright.extract_from_profile. rewrite Hel.
  split; [|intros Hne; split];
    (rewrite fold_set_field_name_fields by by_computation).
  - destruct (Scrape_bios_playwright.normalize <$> name_spans el).
    + by rewrite lookup_insert_eq.
    + rewrite !lookup_insert_ne by done. by rewrite lookup_insert_eq.
  - destruct (name_spans el) as [|t ts]; [done|]. rewrite fmap_cons.
    rewrite lookup_insert_ne by done. by rewrite lookup_insert_eq.
  - destruct (name_spans el) as [|t ts]; [done|]. rewrite fmap_cons.
    rewrite lookup_insert_eq.
    rewrite last_cons. by destruct (last (Scrape_bios_playwright.normalize <$> ts)).
Qed.

(** With a [span] below the name element, or with no name element, the
    two extractors give the same mapping. *)
Lemma extractors_agree page :
  (forall el, player_name page = Some el -> name_spans el <> []) ->
  Scrape_bios_requests.extract_from_profile page
  = Scrape_bios_playwright.extract_from_profile page.
Proof.
  intros Hspans.
  unfold Scrape_bios_requests.extract_from_profile,
    Scrape_bios_playwright.extract_from_profile.
  rewrite fold_set_field_requests. f_equal.
  destruct (player_name page) as [el|] eqn:Hel.
  - specialize (Hspans el eq_refl).
    rewrite (list_fmap_ext Scrape_bios_requests.normalize
               Scrape_bios_playwright.normalize (name_spans el))
      by (intros; apply normalize_requests).
    destruct (name_spans el) as [|t ts]; [done|]. rewrite fmap_cons.
    destruct (jersey_number page); by rewrite ?normalize_requests.
  - destruct (jersey_number page); by rewrite ?normalize_requests.
Qed.

(** Without a [span] below the name element, the requests extractor
    reads the name from the element's own text. *)
Lemma requests_spanless_name page el :
  player_name page = Some el -> name_spans el = [] ->
  Scrape_bios_requests.extract_from_profile page !! "Player"
  = Some (Scrape_bios_requests.normalize (name_text el))
  /\ Scrape_bios_requests.extract_from_profile page !! "FirstName"
  = Some (default "" (head (split (Scrape_bios_requests.normalize (name_text el)))))
  /\ Scrape_bios_requests.extract_from_profile page !! "LastName"
  = Some (default "" (last (split (Scrape_bios_requests.normalize (name_text el))))).
Proof.
  intros Hel Hspans. unfold Scrape_bios_requests.extract_from_profile.
  rewrite Hel, Hspans, fold_set_field_requests. cbn [fmap list_fmap].
  set (words := split (Scrape_bios_requests.normalize (name_text el))).
  repeat split; (rewrite fold_set_field_name_fields by by_computation).
  - destruct words.
    + by rewrite lookup_insert_eq.
    + rewrite !lookup_insert_ne by done. by rewrite lookup_insert_eq.
  - destruct words as [|w ws].
    + rewrite lookup_insert_ne by done. by destruct (jersey_number page).
    + rewrite lookup_insert_ne by done. by rewrite lookup_insert_eq.
  - destruct words as [|w ws] eqn:E.
    + rewrite lookup_insert_ne by done. by destruct (jersey_number page).
    + rewrite lookup_insert_eq, last_cons. by destruct (last ws).
Qed.

(** C7 as amended.  For every name element with at least one [span]
    below it, in both scrapers: [Player] is the normalized texts of the
    [span]s joined with single spaces and then stripped of white space at
    the two ends, which is the join itself whenever the first and the last
    part have text; [FirstName] is the first part and [LastName] the last
    part, whatever stands between them; so the parts Jane, Doe give
    [Player] = "Jane Doe", [FirstName] = "Jane", [LastName] = "Doe", the
    parts Jane, Q, Doe the same two key fields, and a single part is both
    [FirstName] and [LastName].  For a name element with no [span], the
    requests scraper takes [Player] from the element's own normalized text
    and the parts from its words. *)
Theorem C7_name_parts (page : Profile) (el : NameElement) :
  player_name page = Some el ->
  (name_spans el <> [] ->
   let parts := Scrape_bios_playwright.normalize <$> name_spans el in
   let data := Scrape_bios_playwright.extract_from_profile page in
   Scrape_bios_requests.extract_from_profile page = data
   /\ data !! "Player" = Some (strip (join " " parts))
   /\ data !! "FirstName" = head parts
   /\ data !! "LastName" = last parts
   /\ (forall first_part last_part,
         head parts = Some first_part -> last parts = Some last_part ->
         first_part <> "" -> last_part <> "" ->
         data !! "Player" = Some (join " " parts))
   /\ (forall part, parts = [part] ->
         data !! "FirstName" = Some part /\ data !! "LastName" = Some part)
   /\ (parts = ["Jane"; "Doe"] ->
         data !! "Player" = Some "Jane Doe"
         /\ data !! "FirstName" = Some "Jane" /\ data !! "LastName" = Some "Doe")
   /\ (parts = ["Jane"; "Q"; "Doe"] ->
         data !! "Player" = Some "Jane Q Doe"
         /\ data !! "FirstName" = Some "Jane" /\ data !! "LastName" = Some "Doe"))
  /\ (name_spans el = [] ->
      let words := split (Scrape_bios_requests.normalize (name_text el)) in
      let data := Scrape_bios_requests.extract_from_profile page in
      data !! "Player" = Some (Scrape_bios_requests.normalize (name_text el))
      /\ data !! "FirstName" = Some (default "" (head words))
      /\ data !! "LastName" = Some (default "" (last words))).
Proof.
  intros Hel. split; [|by apply requests_spanless_name].
  intros Hne parts data.
  destruct (playwright_name_fields page el Hel) as (HP & HFL).
  destruct (HFL Hne) as [HF HL]. fold parts in HP, HF, HL. fold data in HP, HF, HL.
  split; [|split; [done|split; [done|split; [done|]]]].
  { apply extractors_agree. intros el' Hel'. congruence. }
  split; [|split; [|split]].
  - intros f l Hf Hl Hfne Hlne. rewrite HP. f_equal.
    by apply (strip_join_normalized _ f l).
  - intros part Hparts. by rewrite HF, HL, Hparts.
  - intros Hparts. by rewrite HP, HF, HL, Hparts.
  - intros Hparts. by rewrite HP, HF, HL, Hparts.
Qed.

Lemma C7_witness :
  player_name Inputs.two_span_page
  = Some {| name_text := "Jane Doe"; name_spans := ["Jane "; " Doe"] |}
  /\ Scrape_bios_playwright.extract_from_profile Inputs.two_span_page !! "Player"
     = Some "Jane Doe"
  /\ Scrape_bios_requests.extract_from_profile Inputs.two_span_page !! "LastName"
     = Some "Doe".
Proof.
  split; [reflexivity|].
  pose proof (C7_name_parts Inputs.two_span_page _ eq_refl) as [H _].
  destruct (H ltac:(done)) as (Hrq & _ & _ & _ & _ & _ & Hjd & _).
  destruct (Hjd eq_refl) as (HP & _ & HL).
  split; [exact HP|]. rewrite Hrq. exact HL.
Defined.

(** C7, as stated, fails twice.  With an empty first [span] followed by
    the [span] Doe, the parts joined with single spaces are " Doe", yet
    [Player] is "Doe".  And for the name element Jane Doe with no [span],
    whose sub-elements join to the empty text, the requests scraper sets
    [Player] to "Jane Doe". *)
Lemma C7_counterexample :
  (join " " (Scrape_bios_playwright.normalize <$> [""; "Doe"]) = " Doe"
   /\ Scrape_bios_playwright.extract_from_profile Inputs.empty_first_span_page
        !! "Player" = Some "Doe"
   /\ Scrape_bios_requests.extract_from_profile Inputs.empty_first_span_page
        !! "Player" = Some "Doe")
  /\ (join " " (Scrape_bios_requests.normalize <$> []) = ""
      /\ Scrape_bios_requests.extract_from_profile Inputs.spanless_page
           !! "Player" = Some "Jane Doe").
Proof. repeat split; by vm_compute. Qed.

(** C10, at the failing input.  On a profile page whose name element
    holds the text Jane Doe with no [span] below it, the Playwright
    extractor leaves [Player], [FirstName] and [LastName] empty, while the
    requests extractor fills them from the element's text: the two
    mappings differ. *)
Theorem C10_extractors_differ_without_spans :
  let playwright := Scrape_bios_playwright.extract_from_profile Inputs.spanless_page in
  let requests := Scrape_bios_requests.extract_from_profile Inputs.spanless_page in
  (playwright !! "Player" = Some "" /\ playwright !! "FirstName" = Some ""
   /\ playwright !! "LastName" = Some "")
  /\ (requests !! "Player" = Some "Jane Doe" /\ requests !! "FirstName" = Some "Jane"
      /\ requests !! "LastName" = Some "Doe")
  /\ playwright !! "Number" = requests !! "Number"
  /\ playwright !! "Position" = requests !! "Position"
  /\ playwright <> requests.
Proof.
  intros playwright requests.
  assert (playwright !! "Player" = Some "") as HP by by vm_compute.
  assert (requests !! "Player" = Some "Jane Doe") as HR by by vm_compute.
  split; [by vm_compute|]. split; [by vm_compute|].
  split; [by vm_compute|]. split; [by vm_compute|].
  intros Heq. rewrite Heq in HP. congruence.
Qed.

End Extractors.

(** ** Link discovery *)

Section Links.
Import Py Dom Spec.

Lemma startswith_app s t : startswith (s +:+ t) s = true.
Proof.
  induction s as [|c s IH]; [by destruct t|].
  rewrite app_String. simpl. by rewrite Ascii.eqb_refl, IH.
Qed.



Lemma contains_app_l p h needle :
  contains h needle = true -> contains (p +:+ h) needle = true.
Proof.
  intros H. induction p as [|c p IH]; [done|].
  rewrite app_String. simpl. rewrite IH. apply orb_true_r.
Qed.

Lemma absolute_not_relative h : startswith (absolute h) "/" = false.
Proof. unfold absolute. by destruct (startswith h "/") eqn:E. Qed.


(** A relative [href] and its absolute form resolve to the same URL. *)
Lemma absolute_of_absolute h : absolute (absolute h) = absolute h.
Proof.
  unfold absolute at 1. by rewrite absolute_not_relative.
Qed.

Lemma playwright_add_link seen h :
  contains h "/sports/mens-ice-hockey/roster/" = true ->
  Scrape_bios_playwright.add_link seen (Some h) = add_url seen (absolute h).
Proof.
  intros Hh. unfold Scrape_bios_playwright.add_link.
  rewrite decide_False; [done|]. by intros ->.
Qed.

Lemma playwright_links anchors seen :
  fold_left Scrape_bios_playwright.add_link
    (filter (fun a => Scrape_bios_playwright.selected a = true) anchors) seen
  = fold_left add_url
      (absolute <$> filter (fun h => contains h "/sports/mens-ice-hockey/roster/" = true)
                           (omap id anchors)) seen.
Proof.
  revert seen. induction anchors as [|[h|] anchors IH]; intros seen; [done| |].
  - cbn [omap list_omap id].
    destruct (contains h "/sports/mens-ice-hockey/roster/") eqn:Hh.
    + rewrite !filter_cons_True by done. rewrite fmap_cons. cbn [fold_left].
      by rewrite playwright_add_link, IH.
    + rewrite !filter_cons_False by (simpl; congruence). apply IH.
  - rewrite filter_cons_False by done. apply IH.
Qed.

Lemma requests_add_link seen h :
  Scrape_bios_requests.add_link seen h
  = if contains h "/sports/mens-ice-hockey/roster/"
    then add_url seen (absolute h) else seen.
Proof.
  unfold Scrape_bios_requests.add_link.
  destruct (contains h "/sports/mens-ice-hockey/roster/") eqn:Hh; [|done].
  rewrite bool_decide_eq_true_2; [done|].
  rewrite !elem_of_cons, elem_of_nil. intros [->|[->|[]]]; by vm_compute in Hh.
Qed.

Lemma requests_links hrefs seen :
  fold_left Scrape_bios_requests.add_link hrefs seen
  = fold_left add_url
      (absolute <$> filter (fun h => contains h "/sports/mens-ice-hockey/roster/" = true)
                           hrefs) seen.
Proof.
  revert seen. induction hrefs as [|h hrefs IH]; intros seen; [done|].
  cbn [fold_left]. rewrite requests_add_link, IH.
  destruct (contains h "/sports/mens-ice-hockey/roster/") eqn:Hh.
  - by rewrite filter_cons_True by done.
  - by rewrite filter_cons_False by congruence.
Qed.
















End Links.

(** ** The scraper drivers *)

Section Drivers.
Import Py Dom Spec.

(** A text holds each of its pieces. *)
Lemma contains_middle a u b : contains (a +:+ u +:+ b) u = true.
Proof.
  apply contains_app_l. destruct u as [|c u]; [by destruct b|].
  change (contains (String c u +:+ b) (String c u))
    with (startswith (String c u +:+ b) (String c u)
          || contains (u +:+ b) (String c u)).
  by rewrite startswith_app.
Qed.

Lemma scraped_failed_length visit row_of links :
  length (scraped visit row_of links) + length (failed visit links) = length links.
Proof.
  induction links as [|u links IH]; [done|].
  unfold scraped, failed in *. cbn [omap list_omap].
  destruct (visit u); simpl; lia.
Qed.

Lemma loop_failure_lines visit progress failure links :
  (forall link, ¬ is_failure_line (progress link)) ->
  (forall f, is_failure_line (failure f)) ->
  filter is_failure_line (loop_lines visit progress failure links)
  = failure <$> failed visit links.*2.
Proof.
  intros Hp Hf. induction links as [|[i u] links IH]; [done|].
  unfold loop_lines, failed in *. cbn [mbind list_bind fmap list_fmap omap list_omap].
  rewrite filter_app, IH. cbn [snd].
  rewrite filter_cons_False by apply Hp.
  destruct (visit u) as [exc|page].
  - by rewrite filter_cons_True by apply Hf.
  - done.
Qed.

Lemma loop_progress_lines visit progress failure links :
  (forall link, is_progress_line (progress link)) ->
  (forall f, ¬ is_progress_line (failure f)) ->
  filter is_progress_line (loop_lines visit progress failure links)
  = progress <$> links.
Proof.
  intros Hp Hf. induction links as [|[i u] links IH]; [done|].
  unfold loop_lines in *. cbn [mbind list_bind fmap list_fmap].
  rewrite filter_app, IH. cbn [snd].
  rewrite filter_cons_True by apply Hp.
  destruct (visit u) as [exc|page]; [|done].
  by rewrite filter_cons_False by apply Hf.
Qed.

Lemma playwright_loop visit n links rows out :
  fold_left (Scrape_bios_playwright.visit_link visit n) links (rows, out)
  = (rows ++ scraped visit playwright_row links.*2,
     out ++ loop_lines visit (playwright_progress n) playwright_failure links).
Proof.
  revert rows out. induction links as [|[i u] links IH]; intros rows out.
  - simpl. by rewrite !app_nil_r.
  - cbn [fold_left]. unfold Scrape_bios_playwright.visit_link at 2.
    unfold scraped, loop_lines in *.
    cbn [mbind list_bind fmap list_fmap omap list_omap snd].
    destruct (visit u) as [exc|page]; rewrite IH; cbn [snd];
      by rewrite <- ?app_assoc.
Qed.

Lemma requests_loop get_soup n links rows out :
  fold_left (Scrape_bios_requests.visit_link get_soup n) links (rows, out)
  = (rows ++ scraped get_soup requests_row links.*2,
     out ++ loop_lines get_soup (requests_progress n) requests_failure links).
Proof.
  revert rows out. induction links as [|[i u] links IH]; intros rows out.
  - simpl. by rewrite !app_nil_r.
  - cbn [fold_left]. unfold Scrape_bios_requests.visit_link at 2.
    unfold scraped, loop_lines in *.
    cbn [mbind list_bind fmap list_fmap omap list_omap snd].
    destruct (get_soup u) as [exc|page]; rewrite IH; cbn [snd];
      by rewrite <- ?app_assoc.
Qed.

Lemma enumerate_links (links : list string) :
  (zip (seq 1 (length links)) links).*2 = links.
Proof. apply snd_zip. by rewrite length_seq. Qed.

Lemma playwright_main visit OUT_CSV roster :
  Scrape_bios_playwright.main visit OUT_CSV roster
  = let links := Scrape_bios_playwright.gather_profile_links roster in
    let n := length links in
    let rows := scraped visit playwright_row links in
    (Scrape_bios_playwright.HEADERS :: rows,
     [(stdout, "Opening roster page: " +:+ Scrape_bios_playwright.ROSTER_URL);
      (stdout, "Found " +:+ pretty n +:+ " profile links")]
     ++ loop_lines visit (playwright_progress n) playwright_failure (zip (seq 1 n) links)
     ++ [(stdout, "Wrote " +:+ pretty (length rows) +:+ " bios to " +:+ OUT_CSV)]).
Proof.
  unfold Scrape_bios_playwright.main. rewrite playwright_loop, enumerate_links.
  cbn zeta. by rewrite <- !app_assoc.
Qed.

Lemma requests_main get_soup OUT_CSV soup :
  Scrape_bios_requests.main get_soup OUT_CSV soup
  = let links := Scrape_bios_requests.gather_profile_links soup in
    let n := length links in
    let scraped_rows := scraped get_soup requests_row links in
    let rows := match scraped_rows with
                | [] => requests_row <$> players soup
                | _ => scraped_rows
                end in
    (Scrape_bios_requests.HEADERS :: rows,
     [(stdout, "Fetching roster page: " +:+ Scrape_bios_requests.ROSTER_URL);
      (stdout, "Found " +:+ pretty n +:+ " profile links (attempting to fetch each)")]
     ++ loop_lines get_soup (requests_progress n) requests_failure (zip (seq 1 n) links)
     ++ match scraped_rows with
        | [] => [(stdout, "No profile pages scraped; attempting to parse roster page entries directly")]
        | _ => []
        end
     ++ [(stdout, "Wrote " +:+ pretty (length rows) +:+ " bios to " +:+ OUT_CSV)]).
Proof.
  unfold Scrape_bios_requests.main. rewrite requests_loop, enumerate_links.
  cbn zeta. rewrite app_nil_l.
  destruct (scraped get_soup requests_row
              (Scrape_bios_requests.gather_profile_links soup));
    by rewrite <- ?app_assoc.
Qed.

(** C6.  For every roster page and whatever the visits of its profile
    links give, in both scrapers: the table written holds the header and
    one row for each link whose visit gave a page, in discovery order (in
    the requests scraper, whenever at least one visit did); the loop
    announces every link in turn, so a failure never ends it; and the
    printed failure lines are one for each link whose visit raised, in
    order, each naming its URL.  With ten links of which one fails, the
    table has nine rows under its header and one failure line is printed. *)
Theorem C6_failed_profile_is_skipped
    (visit : string -> string + Profile) (OUT_CSV : string) (roster : Roster) :
  (let links := Scrape_bios_playwright.gather_profile_links roster in
   let run := Scrape_bios_playwright.main visit OUT_CSV roster in
   run.1 = Scrape_bios_playwright.HEADERS :: scraped visit playwright_row links
   /\ filter is_failure_line run.2 = playwright_failure <$> failed visit links
   /\ filter is_progress_line run.2
      = playwright_progress (length links) <$> zip (seq 1 (length links)) links
   /\ length (scraped visit playwright_row links) + length (failed visit links)
      = length links
   /\ (length links = 10 -> length (failed visit links) = 1 ->
       length run.1 = 1 + 9 /\ length (filter is_failure_line run.2) = 1))
  /\ (let links := Scrape_bios_requests.gather_profile_links roster in
      let run := Scrape_bios_requests.main visit OUT_CSV roster in
      (scraped visit requests_row links <> [] ->
       run.1 = Scrape_bios_requests.HEADERS :: scraped visit requests_row links)
      /\ filter is_failure_line run.2 = requests_failure <$> failed visit links
      /\ filter is_progress_line run.2
         = requests_progress (length links) <$> zip (seq 1 (length links)) links
      /\ length (scraped visit requests_row links) + length (failed visit links)
         = length links
      /\ (length links = 10 -> length (failed visit links) = 1 ->
          length run.1 = 1 + 9 /\ length (filter is_failure_line run.2) = 1))
  /\ (forall f, contains (playwright_failure f).2 f.1 = true
                /\ contains (requests_failure f).2 f.1 = true).
Proof.
  split; [|split].
  - intros links run.
    assert (filter is_failure_line run.2 = playwright_failure <$> failed visit links)
      as Hfail.
    { unfold run. rewrite playwright_main. cbn [snd]. fold links.
      rewrite !filter_app, loop_failure_lines, enumerate_links by done.
      rewrite filter_cons_False, filter_cons_False by done.
      rewrite filter_nil, filter_cons_False by done.
      by rewrite filter_nil, app_nil_r. }
    assert (run.1 = Scrape_bios_playwright.HEADERS :: scraped visit playwright_row links)
      as Hrows by (unfold run; by rewrite playwright_main).
    pose proof (scraped_failed_length visit playwright_row links) as Hlen.
    split; [done|]. split; [done|]. split; [|split; [done|]].
    + unfold run. rewrite playwright_main. cbn [snd]. fold links.
      rewrite !filter_app, loop_progress_lines by done.
      rewrite filter_cons_False, filter_cons_False by done.
      rewrite filter_nil, filter_cons_False by done.
      by rewrite filter_nil, app_nil_r.
    + intros H10 H1. rewrite Hrows, Hfail, length_fmap. simpl. lia.
  - intros links run.
    assert (filter is_failure_line run.2 = requests_failure <$> failed visit links)
      as Hfail.
    { unfold run. rewrite requests_main. cbn [snd]. fold links.
      rewrite !filter_app, loop_failure_lines, enumerate_links by done.
      rewrite filter_cons_False, filter_cons_False by done.
      rewrite filter_nil, filter_cons_False by done.
      rewrite filter_nil, app_nil_r.
      destruct (scraped visit requests_row links); [|by rewrite app_nil_r].
      by rewrite filter_cons_False, app_nil_r by done. }
    assert (scraped visit requests_row links <> [] ->
            run.1 = Scrape_bios_requests.HEADERS :: scraped visit requests_row links)
      as Hrows.
    { intros Hne. unfold run. rewrite requests_main. cbn [fst]. fold links.
      by destruct (scraped visit requests_row links). }
    pose proof (scraped_failed_length visit requests_row links) as Hlen.
    split; [done|]. split; [done|]. split; [|split; [done|]].
    + unfold run. rewrite requests_main. cbn [snd]. fold links.
      rewrite !filter_app, loop_progress_lines by done.
      rewrite filter_cons_False, filter_cons_False by done.
      rewrite filter_nil, filter_cons_False by done.
      rewrite filter_nil, app_nil_r.
      destruct (scraped visit requests_row links); [|by rewrite app_nil_r].
      by rewrite filter_cons_False, app_nil_r by done.
    + intros H10 H1. rewrite Hfail, length_fmap.
      rewrite Hrows by (intros Hnil; rewrite Hnil in Hlen; simpl in Hlen; lia).
      simpl. lia.
  - intros [u e]. split; apply contains_middle.
Qed.

End Drivers.

(** ** The persistence layer *)

Section Persistence.
Import Py Csv Models Db_loader Spec.
Context {float : Type} (float_of_str : string -> option float).

Lemma keeps_refl (db : Database float) : keeps db db.
Proof. by split. Qed.

Lemma keeps_trans (db1 db2 db3 : Database float) :
  keeps db1 db2 -> keeps db2 db3 -> keeps db1 db3.
Proof. intros [? ?] [? ?]. split; by etrans. Qed.

Lemma stored_keeps (db db' : Database float) o :
  keeps db db' -> stored db o -> stored db' o.
Proof.
  intros [Hb Hs]. destruct o as [b|st]; simpl; intros Ho.
  - by eapply lookup_weaken.
  - by eapply lookup_weaken.
Qed.

Lemma insert_Ok (db db' : Database float) o :
  insert db o = Ok db' -> stored db' o /\ keeps db db'.
Proof.
  unfold insert. destruct (bindable o); [|done]. destruct o as [b|st]; simpl.
  - destruct (bio db !! (FirstName b, LastName b)) eqn:E; [done|].
    intros [= <-]. simpl. split; [apply lookup_insert_eq|].
    split; simpl; [by apply insert_subseteq|done].
  - destruct (stats db !! (text (st !! "FirstName"), text (st !! "LastName"))) eqn:E; [done|].
    intros [= <-]. simpl. split; [apply lookup_insert_eq|].
    split; simpl; [done|by apply insert_subseteq].
Qed.

Lemma insert_Ok_bindable (db db' : Database float) o :
  insert db o = Ok db' -> bindable o = true.
Proof. unfold insert. by destruct (bindable o). Qed.


(** A flush that succeeds leaves every object of the batch in the store,
    next to what the store held. *)
Lemma flush_Ok (db db' : Database float) batch :
  flush db batch = Ok db' -> holds_all db' batch /\ keeps db db'.
Proof.
  revert db. induction batch as [|o batch IH]; intros db.
  - intros [= <-]. split; [constructor|apply keeps_refl].
  - cbn [flush]. destruct (insert db o) as [db1|e] eqn:Ho; [|done]. cbn [bind].
    intros Hrest. apply insert_Ok in Ho as [Ho Hk].
    destruct (IH _ Hrest) as [Hall Hk'].
    split; [|by eapply keeps_trans].
    constructor; [by eapply stored_keeps|done].
Qed.

Lemma flush_Ok_bindable (db db' : Database float) batch :
  flush db batch = Ok db' -> Forall (fun o => bindable o = true) batch.
Proof.
  revert db. induction batch as [|o batch IH]; intros db; [by constructor|].
  cbn [flush]. destruct (insert db o) as [db1|e] eqn:Ho; [|done]. cbn [bind].
  intros Hrest. constructor; [by eapply insert_Ok_bindable|by eapply IH].
Qed.



Lemma load_bios_cases (db : Database float) csv_file :
  load_bios db csv_file
  = match flush db (BioObj <$> make_bio_instances csv_file) with
    | Ok db' => (db', Ok (make_bio_instances csv_file))
    | Raise e => (db, Raise e)
    end.
Proof.
  unfold load_bios, with_Session, and_then, add_all, commit, ret, make_bio_instances.
  cbn [pending committed app].
  by destruct (flush db (BioObj <$> (make_bio_row <$> DictReader csv_file))).
Qed.

Lemma load_stats_cases (db : Database float) csv_file :
  load_stats float_of_str db csv_file
  = match make_stats_instances float_of_str csv_file with
    | Raise e => (db, Raise e)
    | Ok rows =>
        match flush db (StatsObj <$> rows) with
        | Ok db' => (db', Ok rows)
        | Raise e => (db, Raise e)
        end
    end.
Proof.
  unfold load_stats, make_stats_instances.
  destruct (stats_rows float_of_str (DictReader csv_file)) as [rows|e]; [|done].
  unfold with_Session, and_then, add_all, commit, ret. cbn [pending committed app].
  by destruct (flush db (StatsObj <$> rows)).
Qed.

(** [init.py] commits twice: the bio batch, then the stats batch. *)
Lemma init_cases (db : Database float) bio_csv stats_csv :
  init float_of_str db bio_csv stats_csv
  = match flush db (BioObj <$> make_bio_instances bio_csv) with
    | Raise e => (db, Raise e)
    | Ok db1 =>
        match make_stats_instances float_of_str stats_csv with
        | Raise e => (db1, Raise e)
        | Ok rows =>
            match flush db1 (StatsObj <$> rows) with
            | Raise e => (db1, Raise e)
            | Ok db2 => (db2, Ok tt)
            end
        end
    end.
Proof.
  unfold init, with_Session, and_then, add_all, commit, ret, raise_from.
  cbn [pending committed app].
  destruct (flush db (BioObj <$> make_bio_instances bio_csv)) as [db1|e]; [|done].
  cbn [pending committed app].
  destruct (make_stats_instances float_of_str stats_csv) as [rows|e]; [|done].
  cbn [pending committed app].
  by destruct (flush db1 (StatsObj <$> rows)).
Qed.



End Persistence.


(** * Further properties of the code *)

(** ** The normalizer *)

Section NormalizerMore.
Import Py Spec Terms.

Lemma join_spaced w ws : join " " (w :: ws) = w +:+ spaced ws.
Proof.
  revert w. induction ws as [|x ws IH]; intros w.
  - simpl. by rewrite app_empty_r.
  - by rewrite join_cons2, IH.
Qed.

Lemma words_from_glued s :
  only_plain_spaces s = true -> no_adjacent_spaces s = true ->
  not_space_at (last_char s) = true ->
  s = (words_from s).1 +:+ spaced (words_from s).2.
Proof.
  induction s as [|c s IH]; [done|]. intros Hplain Hadj Hlast.
  simpl in Hplain. apply andb_true_iff in Hplain as [Hc Hplain].
  assert (no_adjacent_spaces s = true) as Hadj'.
  { destruct s as [|d s]; [done|]. simpl in Hadj. by apply andb_true_iff in Hadj as [_ ?]. }
  assert (not_space_at (last_char s) = true) as Hlast' by by destruct s.
  specialize (IH Hplain Hadj' Hlast').
  simpl. destruct (words_from s) as [w ws] eqn:E. simpl in IH.
  destruct (is_space c) eqn:Hsp; simpl.
  - simpl in Hc. apply bool_decide_eq_true in Hc as ->.
    destruct w as [|d w]; simpl.
    + destruct ws as [|x ws]; simpl in IH; subst s; [done|].
      exfalso. revert Hadj. rewrite app_empty.
      change (no_adjacent_spaces (String space (spaced (x :: ws))))
        with (negb (is_space space && is_space space)
              && no_adjacent_spaces (spaced (x :: ws))).
      done.
    + by rewrite IH.
  - by rewrite app_String, <- IH.
Qed.

(** A text whose white space is collapsed is the join of its words. *)
Lemma collapsed_join_split s : collapsed s = true -> join " " (split s) = s.
Proof.
  unfold collapsed, trimmed. rewrite !andb_true_iff.
  intros [[Hplain Hadj] [Hfirst Hlast]].
  pose proof (words_from_glued s Hplain Hadj Hlast) as Hs.
  unfold split. destruct s as [|c s]; [done|].
  simpl in Hfirst. apply negb_true_iff in Hfirst.
  cbn [words_from] in *. destruct (words_from s) as [w ws]. rewrite Hfirst in *.
  cbn [fst snd cons_word] in *. by rewrite join_spaced.
Qed.

(** X1.  The normalizer of either scraper leaves a text as it is exactly
    when the white space of the text is already collapsed: only ordinary
    spaces, never two side by side, none at either end.  So normalizing
    twice gives what normalizing once gives. *)
Theorem X1_normalize_fixes_collapsed_texts (s : string) :
  (Scrape_bios_playwright.normalize s = s <-> collapsed s = true)
  /\ (Scrape_bios_requests.normalize s = s <-> collapsed s = true)
  /\ Scrape_bios_requests.normalize (Scrape_bios_requests.normalize s)
     = Scrape_bios_requests.normalize s.
Proof.
  assert (Scrape_bios_playwright.normalize s = s <-> collapsed s = true) as H.
  { split.
    - intros <-. rewrite normalize_join_split. apply join_collapsed, split_words.
    - intros Hc. rewrite normalize_join_split. by apply collapsed_join_split. }
  split; [done|]. rewrite !normalize_requests. split; [done|].
  apply normalize_idempotent.
Qed.

(** X2.  The normalizer gives the empty text exactly for the texts made of
    white space only (the empty text among them); any other text keeps at
    least one word. *)
Theorem X2_normalize_empty_iff_blank (s : string) :
  (Scrape_bios_playwright.normalize s = "" <-> all_space s = true)
  /\ (Scrape_bios_requests.normalize s = "" <-> all_space s = true)
  /\ (all_space s = false -> split (Scrape_bios_playwright.normalize s) <> []).
Proof.
  assert (Scrape_bios_playwright.normalize s = "" <-> all_space s = true) as H.
  { rewrite normalize_join_split, <- split_nil. split.
    - intros Hj. pose proof (split_words s) as Hw.
      destruct (split s) as [|w ws]; [done|].
      inversion Hw as [|? ? [Hne _] _]; subst.
      by destruct (join_nonempty w ws Hne).
    - by intros ->. }
  split; [done|]. rewrite normalize_requests. split; [done|].
  intros Hs. rewrite normalize_join_split, split_join by apply split_words.
  rewrite split_nil. congruence.
Qed.

End NormalizerMore.

(** ** The profile extractors, field by field *)

Section ExtractorsMore.
Import Py Dom Spec Terms.

Lemma strip_is_trimmed s : trimmed (strip s) = true.
Proof. by destruct (strip_spec s) as (l & r & _ & _ & _ & H). Qed.

Lemma word_trimmed w : is_word w -> trimmed w = true.
Proof.
  intros [Hne Hw]. unfold trimmed.
  by rewrite first_char_word, last_char_word.
Qed.

Lemma clean_insert data k v :
  clean data -> k ∈ Scrape_bios_playwright.HEADERS -> trimmed v = true ->
  clean (<[k := v]> data).
Proof.
  intros [Hkeys Hvals] Hk Hv. split.
  - intros k'. destruct (decide (k = k')) as [<-|Hne].
    + rewrite lookup_insert_eq. split; [done|by eexists].
    + by rewrite lookup_insert_ne.
  - by apply map_Forall_insert_2.
Qed.

Lemma clean_blank :
  clean (list_to_map ((fun h => (h, "")) <$> Scrape_bios_playwright.HEADERS)).
Proof.
  split.
  - intros k. split.
    + intros [v Hv]. apply elem_of_list_to_map_2 in Hv.
      by apply list_elem_of_fmap in Hv as (h & [= -> ->] & Hh).
    + intros Hk. exists "". apply elem_of_list_to_map_1; [by_computation|].
      apply list_elem_of_fmap. by exists k.
  - intros k v Hv. apply elem_of_list_to_map_2 in Hv.
    by apply list_elem_of_fmap in Hv as (h & [= -> ->] & Hh).
Qed.

Lemma label_field_detail t f : label_field t = Some f -> f ∈ detail_fields.
Proof.
  unfold label_field. repeat case_match; intros [= <-]; by_computation.
Qed.

Lemma detail_is_header f : f ∈ detail_fields -> f ∈ Scrape_bios_playwright.HEADERS.
Proof.
  intros Hf. repeat (apply elem_of_cons in Hf as [->|Hf]; [by_computation|]).
  by apply elem_of_nil in Hf.
Qed.

(** What one turn of the loop over the pairs does. *)
Lemma set_field_pair data dl :
  Scrape_bios_playwright.set_field data dl
  = match pair_field dl with
    | Some (f, v) => <[f := v]> data
    | None => data
    end.
Proof.
  unfold Scrape_bios_playwright.set_field, pair_field, label_field.
  destruct (dt dl), (dd dl); try done. by repeat case_match.
Qed.

Lemma pair_field_detail dl f v : pair_field dl = Some (f, v) -> f ∈ detail_fields.
Proof.
  unfold pair_field. destruct (dt dl) as [t|], (dd dl); try done.
  destruct (label_field t) eqn:E; [|done]. intros [= <- _].
  by apply label_field_detail in E.
Qed.

Lemma pair_field_trimmed dl f v : pair_field dl = Some (f, v) -> trimmed v = true.
Proof.
  unfold pair_field. destruct (dt dl) as [t|], (dd dl); try done.
  destruct (label_field t); [|done]. intros [= _ <-]. apply normalize_trimmed.
Qed.

Lemma fold_set_field_clean fields data :
  clean data -> clean (fold_left Scrape_bios_playwright.set_field fields data).
Proof.
  revert data. induction fields as [|dl fields IH]; intros data Hd; [done|].
  cbn [fold_left]. apply IH. rewrite set_field_pair.
  destruct (pair_field dl) as [[f v]|] eqn:E; [|done].
  apply clean_insert; [done| |by eapply pair_field_trimmed].
  by eapply detail_is_header, pair_field_detail.
Qed.

Lemma fold_set_field_untouched fields data f :
  Forall (fun dl => ¬ sets_field f dl) fields ->
  fold_left Scrape_bios_playwright.set_field fields data !! f = data !! f.
Proof.
  revert data. induction fields as [|dl fields IH]; intros data Hf; [done|].
  inversion Hf as [|? ? Hdl Hrest]; subst. cbn [fold_left].
  rewrite IH by done. rewrite set_field_pair.
  destruct (pair_field dl) as [[g v]|] eqn:E; [|done].
  rewrite lookup_insert_ne; [done|]. intros ->. apply Hdl. by exists v.
Qed.

Lemma fold_set_field_last pre dl post data f v :
  pair_field dl = Some (f, v) ->
  Forall (fun d => ¬ sets_field f d) post ->
  fold_left Scrape_bios_playwright.set_field (pre ++ dl :: post) data !! f = Some v.
Proof.
  intros Hdl Hpost. rewrite fold_left_app. cbn [fold_left].
  rewrite fold_set_field_untouched by done.
  rewrite set_field_pair, Hdl. apply lookup_insert_eq.
Qed.

Lemma playwright_extract_fold page :
  Scrape_bios_playwright.extract_from_profile page
  = fold_left Scrape_bios_playwright.set_field (player_fields page)
      (Scrape_bios_playwright.extract_from_profile (without_fields page)).
Proof. reflexivity. Qed.

Lemma requests_extract_fold page :
  Scrape_bios_requests.extract_from_profile page
  = fold_left Scrape_bios_playwright.set_field (player_fields page)
      (Scrape_bios_requests.extract_from_profile (without_fields page)).
Proof.
  unfold Scrape_bios_requests.extract_from_profile at 1.
  by rewrite fold_set_field_requests.
Qed.

Lemma parts_trimmed (texts : list string) part :
  part ∈ Scrape_bios_playwright.normalize <$> texts -> trimmed part = true.
Proof. intros (t & -> & _)%list_elem_of_fmap. apply normalize_trimmed. Qed.

Lemma last_elem (l : list string) x d : x ∈ l -> default d (last l) ∈ l.
Proof.
  intros Hx. destruct (last l) as [y|] eqn:E.
  - simpl. apply last_Some in E as [l' ->]. apply elem_of_app. right. by left.
  - apply last_None in E. subst. by apply elem_of_nil in Hx.
Qed.

Lemma playwright_clean_without_fields page :
  clean (Scrape_bios_playwright.extract_from_profile (without_fields page)).
Proof.
  unfold Scrape_bios_playwright.extract_from_profile, without_fields.
  cbn [jersey_number player_name player_fields fold_left].
  set (data1 := match jersey_number page with
                | Some num_text => _
                | None => _
                end).
  assert (clean data1) as H1.
  { unfold data1. destruct (jersey_number page).
    - apply clean_insert; [apply clean_blank|by_computation|apply normalize_trimmed].
    - apply clean_blank. }
  destruct (player_name page) as [el|]; [|done].
  assert (clean (<["Player" := strip (join " " (Scrape_bios_playwright.normalize
                                                 <$> name_spans el))]> data1)) as H2.
  { apply clean_insert; [done|by_computation|apply strip_is_trimmed]. }
  destruct (Scrape_bios_playwright.normalize <$> name_spans el) as [|p ps] eqn:E; [done|].
  apply clean_insert; [apply clean_insert; [done|by_computation|]|by_computation|].
  - apply (parts_trimmed (name_spans el)). rewrite E. by left.
  - apply (parts_trimmed (name_spans el)). rewrite E.
    apply (last_elem _ p). by left.
Qed.

Lemma requests_clean_without_fields page :
  clean (Scrape_bios_requests.extract_from_profile (without_fields page)).
Proof.
  destruct (player_name page) as [el|] eqn:Hel.
  - destruct (name_spans el) as [|t ts] eqn:Hspans.
    + unfold Scrape_bios_requests.extract_from_profile, without_fields.
      cbn [jersey_number player_name player_fields fold_left].
      rewrite Hel, Hspans. cbn [fmap list_fmap]. rewrite !normalize_requests.
      set (data1 := match jersey_number page with
                    | Some num_text => _
                    | None => _
                    end).
      assert (clean data1) as H1.
      { unfold data1. destruct (jersey_number page).
        - rewrite normalize_requests.
          apply clean_insert; [apply clean_blank|by_computation|apply normalize_trimmed].
        - apply clean_blank. }
      pose proof (split_words (Scrape_bios_playwright.normalize (name_text el))) as Hw.
      assert (clean (<["Player" := Scrape_bios_playwright.normalize (name_text el)]> data1))
        as H2.
      { apply clean_insert; [done|by_computation|apply normalize_trimmed]. }
      destruct (split (Scrape_bios_playwright.normalize (name_text el))) as [|w ws];
        [done|].
      rewrite Forall_forall in Hw.
      apply clean_insert; [apply clean_insert; [done|by_computation|]|by_computation|].
      * apply word_trimmed, Hw. by left.
      * apply word_trimmed, Hw. apply (last_elem _ w). by left.
    + rewrite extractors_agree; [apply playwright_clean_without_fields|].
      intros el'. cbn [without_fields player_name]. rewrite Hel.
      intros [= <-]. by rewrite Hspans.
  - rewrite extractors_agree; [apply playwright_clean_without_fields|].
    intros el'. cbn [without_fields player_name]. by rewrite Hel.
Qed.

Lemma playwright_clean page : clean (Scrape_bios_playwright.extract_from_profile page).
Proof.
  rewrite playwright_extract_fold.
  apply fold_set_field_clean, playwright_clean_without_fields.
Qed.

Lemma requests_clean page : clean (Scrape_bios_requests.extract_from_profile page).
Proof.
  rewrite requests_extract_fold.
  apply fold_set_field_clean, requests_clean_without_fields.
Qed.

Lemma clean_lookup data key :
  clean data ->
  (key ∈ Scrape_bios_playwright.HEADERS ->
   exists v, data !! key = Some v /\ data !!! key = v /\ trimmed v = true)
  /\ (key ∉ Scrape_bios_playwright.HEADERS -> data !! key = None).
Proof.
  intros [Hkeys Hvals]. split.
  - intros Hk. apply Hkeys in Hk as [v Hv]. exists v.
    split; [done|]. split; [by apply lookup_total_correct|by apply (Hvals key)].
  - intros Hk. apply eq_None_not_Some. by rewrite Hkeys.
Qed.

(** X3.  Whatever the page holds, the mapping either extractor returns has
    the ten headers as its keys and no other key, so reading it by header
    never misses; and none of its values starts or ends with white space. *)
Theorem X3_extracted_mapping_has_ten_clean_values (page : Profile) (key : string) :
  (key ∈ Scrape_bios_playwright.HEADERS ->
   (exists v, Scrape_bios_playwright.extract_from_profile page !! key = Some v
              /\ trimmed v = true)
   /\ (exists v, Scrape_bios_requests.extract_from_profile page !! key = Some v
                 /\ trimmed v = true))
  /\ (key ∉ Scrape_bios_playwright.HEADERS ->
      Scrape_bios_playwright.extract_from_profile page !! key = None
      /\ Scrape_bios_requests.extract_from_profile page !! key = None).
Proof.
  destruct (clean_lookup _ key (playwright_clean page)) as [Hp Hp'].
  destruct (clean_lookup _ key (requests_clean page)) as [Hr Hr'].
  split.
  - intros Hk. destruct (Hp Hk) as (v & Hv & _ & Ht).
    destruct (Hr Hk) as (v' & Hv' & _ & Ht'). split; eauto.
  - intros Hk. split; auto.
Qed.

Lemma playwright_detail_blank page f :
  f ∈ detail_fields ->
  Scrape_bios_playwright.extract_from_profile (without_fields page) !! f = Some "".
Proof.
  intros Hf. unfold Scrape_bios_playwright.extract_from_profile, without_fields.
  cbn [jersey_number player_name player_fields fold_left].
  destruct (jersey_number page), (player_name page) as [el|];
    [destruct (Scrape_bios_playwright.normalize <$> name_spans el)| |
     destruct (Scrape_bios_playwright.normalize <$> name_spans el)|];
    repeat (apply elem_of_cons in Hf as [->|Hf];
            [rewrite ?lookup_insert_ne by done; by vm_compute|]);
    by apply elem_of_nil in Hf.
Qed.

Lemma requests_detail_blank page f :
  f ∈ detail_fields ->
  Scrape_bios_requests.extract_from_profile (without_fields page) !! f = Some "".
Proof.
  intros Hf. unfold Scrape_bios_requests.extract_from_profile, without_fields.
  cbn [jersey_number player_name player_fields fold_left].
  destruct (jersey_number page), (player_name page) as [el|];
    [destruct (Scrape_bios_requests.normalize <$> name_spans el);
       [destruct (split (Scrape_bios_requests.normalize (name_text el)))|]| |
     destruct (Scrape_bios_requests.normalize <$> name_spans el);
       [destruct (split (Scrape_bios_requests.normalize (name_text el)))|]|];
    repeat (apply elem_of_cons in Hf as [->|Hf];
            [rewrite ?lookup_insert_ne by done; by vm_compute|]);
    by apply elem_of_nil in Hf.
Qed.

(** X4.  Of the label/value pairs of a profile page, the last one whose
    label selects a detail field is the one whose normalized value the
    field holds, in both extractors; a pair without a label or without a
    value sets nothing; and a detail field that no pair selects (as when
    the page has no pair at all) stays the empty text. *)
Theorem X4_last_matching_pair_sets_the_field (page : Profile) (f : string) :
  f ∈ detail_fields ->
  (forall pre dl post v,
     player_fields page = pre ++ dl :: post ->
     pair_field dl = Some (f, v) ->
     Forall (fun d => ¬ sets_field f d) post ->
     Scrape_bios_playwright.extract_from_profile page !! f = Some v
     /\ Scrape_bios_requests.extract_from_profile page !! f = Some v)
  /\ (Forall (fun d => ¬ sets_field f d) (player_fields page) ->
      Scrape_bios_playwright.extract_from_profile page !! f = Some ""
      /\ Scrape_bios_requests.extract_from_profile page !! f = Some "")
  /\ (forall dl, dt dl = None \/ dd dl = None -> ¬ sets_field f dl).
Proof.
  intros Hf. split; [|split].
  - intros pre dl post v Hfields Hdl Hpost.
    rewrite playwright_extract_fold, requests_extract_fold, Hfields.
    split; by apply fold_set_field_last.
  - intros Hnone. rewrite playwright_extract_fold, requests_extract_fold.
    rewrite !fold_set_field_untouched by done.
    split; [by apply playwright_detail_blank|by apply requests_detail_blank].
  - intros dl Hdl [v Hv]. unfold pair_field in Hv.
    destruct Hdl as [Hdl|Hdl]; rewrite Hdl in Hv; [done|by destruct (dt dl)].
Qed.

Lemma X4_witness :
  "Position" ∈ detail_fields
  /\ Scrape_bios_playwright.extract_from_profile labelled_page !! "Position"
     = Some "Defense"
  /\ Scrape_bios_requests.extract_from_profile labelled_page !! "Position"
     = Some "Defense".
Proof.
  assert ("Position" ∈ detail_fields) as Hf by by_computation.
  split; [done|].
  destruct (X4_last_matching_pair_sets_the_field labelled_page "Position" Hf)
    as [H _].
  apply (H [{| dt := Some "Position:"; dd := Some "Forward" |};
            {| dt := Some "CLASS"; dd := Some " Senior " |}]
           {| dt := Some "position"; dd := Some "Defense" |}
           [{| dt := Some "Major:"; dd := Some "History" |};
            {| dt := None; dd := Some "Weight" |}]); [done|by vm_compute|].
  repeat constructor; intros [v Hv]; by vm_compute in Hv.
Defined.

End ExtractorsMore.

(** ** From the scraped table to the bio records *)

Section ScrapeThenLoad.
Import Py Csv Models Dom Db_loader Spec Terms.

(** A line with one cell under each of the ten headers, as the bio pass
    reads it. *)
Lemma bio_of_ten_cells (cell : string -> string) :
  make_bio_row (next_row Scrape_bios_playwright.HEADERS
                  (cell <$> Scrape_bios_playwright.HEADERS))
  = {| Number := _coerce_int (Some (cell "Number"));
       Player := Some (strip (cell "Player"));
       FirstName := strip (cell "FirstName");
       LastName := strip (cell "LastName");
       Position := Some (strip (cell "Position"));
       Height := Some (strip (cell "Height"));
       Weight := Some (strip (cell "Weight"));
       Class := Some (strip (cell "Class"));
       Hometown := Some (strip (cell "Hometown"));
       HighSchool := Some (strip (cell "HighSchool")) |}.
Proof. reflexivity. Qed.

Lemma bio_of_clean_data data :
  clean data ->
  make_bio_row (next_row Scrape_bios_playwright.HEADERS
                  ((fun h => data !!! h) <$> Scrape_bios_playwright.HEADERS))
  = bio_of_data data.
Proof.
  intros Hclean. rewrite bio_of_ten_cells. unfold bio_of_data.
  assert (forall h, h ∈ Scrape_bios_playwright.HEADERS -> strip (data !!! h) = data !!! h)
    as Hstrip.
  { intros h Hh. destruct (clean_lookup data h Hclean) as [H _].
    destruct (H Hh) as (v & _ & -> & Hv). by apply strip_trimmed. }
  by rewrite !Hstrip by by_computation.
Qed.

Lemma scraped_loaded visit (row_of : Profile -> list string) links :
  scraped visit row_of links = row_of <$> loaded visit links.
Proof.
  unfold scraped, loaded. induction links as [|u links IH]; [done|].
  cbn [omap list_omap]. destruct (visit u); simpl; by rewrite IH.
Qed.

Lemma rows_not_blank (row_of : Profile -> list string) (pages : list Profile) :
  (forall page, row_of page <> []) ->
  filter (fun l => l <> []) (row_of <$> pages) = row_of <$> pages.
Proof.
  intros Hrow. induction pages as [|page pages IH]; [done|].
  rewrite fmap_cons, filter_cons_True by apply Hrow. by rewrite IH.
Qed.

Lemma load_playwright_rows pages :
  make_bio_instances (Scrape_bios_playwright.HEADERS :: (playwright_row <$> pages))
  = (fun page => bio_of_data (Scrape_bios_playwright.extract_from_profile page))
      <$> pages.
Proof.
  unfold make_bio_instances. cbn [DictReader].
  rewrite rows_not_blank by done. rewrite <- !list_fmap_compose.
  apply list_fmap_ext. intros i page _. cbn.
  apply bio_of_clean_data, playwright_clean.
Qed.

Lemma load_requests_rows pages :
  make_bio_instances (Scrape_bios_requests.HEADERS :: (requests_row <$> pages))
  = (fun page => bio_of_data (Scrape_bios_requests.extract_from_profile page))
      <$> pages.
Proof.
  unfold make_bio_instances. cbn [DictReader].
  rewrite rows_not_blank by done. rewrite <- !list_fmap_compose.
  apply list_fmap_ext. intros i page _. cbn.
  apply (bio_of_clean_data _ (requests_clean page)).
Qed.

(** X5.  The table a scraper writes, read back by the bio pass of the
    loader, gives one record for each profile page that was scraped, in
    order, and the record holds the ten extracted values as they are:
    stripping changes none of them, no cell is missing, and [Number] is
    the extracted number read as an integer ([None] if it is no integer).
    For the requests scraper the pages are those of the links, or the
    player blocks of the roster page when no link gave a page. *)
Theorem X5_scraped_table_loads_back
    (visit : string -> string + Profile) (OUT_CSV : string) (roster : Roster) :
  make_bio_instances (Scrape_bios_playwright.main visit OUT_CSV roster).1
  = (fun page => bio_of_data (Scrape_bios_playwright.extract_from_profile page))
      <$> loaded visit (Scrape_bios_playwright.gather_profile_links roster)
  /\ make_bio_instances (Scrape_bios_requests.main visit OUT_CSV roster).1
     = (fun page => bio_of_data (Scrape_bios_requests.extract_from_profile page))
         <$> match loaded visit (Scrape_bios_requests.gather_profile_links roster) with
             | [] => players roster
             | pages => pages
             end.
Proof.
  split.
  - rewrite playwright_main. cbn [fst]. rewrite scraped_loaded.
    apply load_playwright_rows.
  - rewrite requests_main. cbn [fst]. rewrite scraped_loaded.
    destruct (loaded visit (Scrape_bios_requests.gather_profile_links roster))
      as [|page pages].
    + apply load_requests_rows.
    + apply (load_requests_rows (page :: pages)).
Qed.

End ScrapeThenLoad.

(** ** When no profile page is scraped *)

Section NothingScraped.
Import Py Dom Spec Terms.

Lemma requests_gather_playwright roster :
  Scrape_bios_requests.gather_profile_links roster
  = Scrape_bios_playwright.gather_profile_links roster.
Proof.
  unfold Scrape_bios_requests.gather_profile_links,
    Scrape_bios_playwright.gather_profile_links.
  by rewrite requests_links, playwright_links.
Qed.

Lemma loaded_nil visit links :
  Forall (fun url => exists exc, visit url = inl exc) links -> loaded visit links = [].
Proof.
  induction 1 as [|u links [exc Hu] _ IH]; [done|].
  unfold loaded in *. cbn [omap list_omap]. by rewrite Hu.
Qed.

Lemma loaded_cons visit links :
  Exists (fun url => exists page, visit url = inr page) links ->
  loaded visit links <> [].
Proof.
  induction 1 as [u links [page Hu]|u links _ IH].
  - unfold loaded. cbn [omap list_omap]. by rewrite Hu.
  - unfold loaded in *. cbn [omap list_omap]. by destruct (visit u).
Qed.

Lemma loop_lines_Forall (P : stream * string -> Prop) visit progress failure links :
  (forall link, P (progress link)) -> (forall f, P (failure f)) ->
  Forall P (loop_lines visit progress failure links).
Proof.
  intros Hp Hf. induction links as [|[i u] links IH]; [constructor|].
  unfold loop_lines in *. cbn [mbind list_bind]. apply Forall_app. split; [|done].
  cbn [snd]. destruct (visit u); repeat constructor; auto.
Qed.

(** X6.  When the visit of every discovered link fails (or no link is
    discovered), the Playwright scraper writes the header alone, while the
    requests scraper announces that it turns to the roster page and writes
    one row for each player block found there.  When some visit gives a
    page, the requests scraper writes the rows of the links and does not
    make that announcement. *)
Theorem X6_nothing_scraped_fallback
    (visit : string -> string + Profile) (OUT_CSV : string) (roster : Roster) :
  (Forall (fun url => exists exc, visit url = inl exc)
          (Scrape_bios_playwright.gather_profile_links roster) ->
   (Scrape_bios_playwright.main visit OUT_CSV roster).1 = [Scrape_bios_playwright.HEADERS]
   /\ (Scrape_bios_requests.main visit OUT_CSV roster).1
      = Scrape_bios_requests.HEADERS :: (requests_row <$> players roster)
   /\ fallback_line ∈ (Scrape_bios_requests.main visit OUT_CSV roster).2)
  /\ (Exists (fun url => exists page, visit url = inr page)
             (Scrape_bios_playwright.gather_profile_links roster) ->
      (Scrape_bios_requests.main visit OUT_CSV roster).1
      = Scrape_bios_requests.HEADERS
        :: (requests_row <$> loaded visit (Scrape_bios_playwright.gather_profile_links roster))
      /\ fallback_line ∉ (Scrape_bios_requests.main visit OUT_CSV roster).2).
Proof.
  rewrite playwright_main, requests_main, requests_gather_playwright.
  cbn zeta. cbn [fst snd]. rewrite !scraped_loaded. split.
  - intros Hfail. rewrite (loaded_nil _ _ Hfail). cbn [fmap list_fmap].
    split; [done|]. split; [done|].
    rewrite !elem_of_app. right. right. left. by left.
  - intros Hsome. apply loaded_cons in Hsome.
    destruct (loaded visit (Scrape_bios_playwright.gather_profile_links roster))
      as [|page pages]; [done|].
    rewrite fmap_cons. split; [done|]. rewrite app_nil_l.
    assert (forall out : list (stream * string),
              Forall (fun l => startswith l.2 "N" = false) out -> fallback_line ∉ out)
      as Hnot.
    { intros out Hout Hin. rewrite Forall_forall in Hout.
      by apply Hout in Hin. }
    apply Hnot. rewrite !Forall_app. split; [by repeat constructor|]. split.
    + by apply loop_lines_Forall.
    + by repeat constructor.
Qed.

End NothingScraped.

(** ** The stats pass, column by column *)

Section StatsMore.
Import Py Csv Models Db_loader Spec Terms.
Context {float : Type} (float_of_str : string -> option float).

Lemma stats_kw_Ok row kw :
  stats_kw float_of_str row = Ok kw ->
  has_rest row = false
  /\ kw = fold_left (write float_of_str) row (first_keywords row).
Proof.
  rewrite stats_kw_cases. destruct (has_rest row); [done|]. by intros [= <-].
Qed.

Lemma written_keywords items (kw : gmap string (value float)) k :
  is_Some (fold_left (write float_of_str) items kw !! k) ->
  is_Some (kw !! k) \/ Exists (feeds k) items.
Proof.
  revert kw. induction items as [|it items IH]; intros kw; [by left|].
  cbn [fold_left]. intros [H|H]%IH; [|right; by right].
  destruct it as [key val|? ?]; [|by left]. simpl in H.
  destruct (target key) as [f|] eqn:E; [|by left].
  destruct (decide (f = k)) as [<-|Hne].
  - right. by left.
  - rewrite lookup_insert_ne in H by done. by left.
Qed.

(** X7.  For every row of a stats file that the pass coerces, each column
    other than [Number], [FirstName], [LastName], [PN-PIM] and [PN_PIM] is
    stored among the keywords under its own header: as the integer that
    [_coerce_int] gives (or [None]) for a column of [int_fields], as what
    [_coerce_float] gives for [SH_PCT], and as the stripped text of the
    cell for any other column, a header the model does not declare
    included. *)
Theorem X7_stats_columns_under_their_headers
    (file : list (list string)) (row : Row) (kw : gmap string (value float))
    (key : string) (val : option string) :
  row ∈ DictReader file -> stats_kw float_of_str row = Ok kw ->
  Field key val ∈ row ->
  key ∉ ["Number"; "FirstName"; "LastName"; "PN-PIM"; "PN_PIM"] ->
  (key ∈ int_fields -> kw !! key = Some (of_int (_coerce_int val)))
  /\ (key = "SH_PCT" -> kw !! key = Some (of_float (_coerce_float float_of_str val)))
  /\ (key ∉ int_fields -> key ≠ "SH_PCT" ->
      kw !! key = Some (VStr (strip (or_empty val)))).
Proof.
  intros Hrow Hkw Hin Hkey.
  apply DictReader_NoDup in Hrow.
  apply stats_kw_Ok in Hkw as [_ ->].
  assert ((key ∉ ["Number"; "FirstName"; "LastName"]) /\ (key ≠ "PN-PIM") /\ (key ≠ "PN_PIM"))
    as (Hskip & Hpn & Hpn').
  { revert Hkey. rewrite !not_elem_of_cons. tauto. }
  rewrite written_lookup, decide_False by done.
  rewrite (find_field_complete _ _ _ Hrow Hin). cbn [fmap option_fmap option_map].
  unfold coerced. rewrite (decide_False (P := key = "PN-PIM")) by done.
  split; [|split].
  - intros Hint. by rewrite decide_True.
  - intros ->. rewrite decide_False, decide_True; [done..|]. refute_by_computation.
  - intros Hint Hsh. by rewrite !decide_False.
Qed.

(** X8.  The keywords the stats pass builds for a row always hold
    [Number], [FirstName] and [LastName], the two names as texts even when
    the file has no such column; they never hold [PN-PIM]; and any other
    keyword is [PN_PIM] or a header of the row.  The pass never raises but
    for a line longer than the header. *)
Theorem X8_stats_keywords (file : list (list string)) (row : Row) :
  row ∈ DictReader file ->
  match stats_kw float_of_str row with
  | Ok kw =>
      kw !! "Number" = Some (of_int (_coerce_int (get_default row "Number" "")))
      /\ kw !! "FirstName" = Some (VStr (strip (or_empty (get row "FirstName"))))
      /\ kw !! "LastName" = Some (VStr (strip (or_empty (get row "LastName"))))
      /\ kw !! "PN-PIM" = None
      /\ (forall k, is_Some (kw !! k) ->
            k ∈ ["Number"; "FirstName"; "LastName"; "PN_PIM"] \/ Some k ∈ keys row)
  | Raise e => e = AttributeError /\ has_rest row = true
  end.
Proof.
  intros Hrow. apply DictReader_NoDup in Hrow.
  rewrite stats_kw_cases. destruct (has_rest row); [done|].
  split; [|split; [|split; [|split]]].
  - rewrite written_lookup by done. by rewrite decide_True by by_computation.
  - rewrite written_lookup by done. by rewrite decide_True by by_computation.
  - rewrite written_lookup by done. by rewrite decide_True by by_computation.
  - rewrite write_untouched, (first_keywords_lookup float_of_str); [done|].
    apply Forall_forall. intros it _ Hfeeds.
    destruct it as [k val|? ?]; [|done]. simpl in Hfeeds.
    assert (k = "PN-PIM") as -> by by apply target_own in Hfeeds.
    by vm_compute in Hfeeds.
  - intros k [Hk|Hk]%written_keywords.
    + left. rewrite (first_keywords_lookup float_of_str) in Hk.
      case_decide as Hin; [|by destruct Hk].
      revert Hin. rewrite !elem_of_cons. tauto.
    + apply Exists_exists in Hk as (it & Hit & Hfeeds).
      destruct it as [key val|? ?]; [|done]. simpl in Hfeeds.
      destruct (decide (k = "PN_PIM")) as [->|Hne].
      * left. by_computation.
      * right. apply target_own in Hfeeds as ->; [|done].
        apply list_elem_of_fmap. by exists (Field k val).
Qed.

Lemma stats_rows_only_AttributeError rows e :
  stats_rows float_of_str rows = Raise e -> e = AttributeError.
Proof.
  induction rows as [|row rows IH]; [done|]. cbn [stats_rows].
  unfold make_stats_row. rewrite stats_kw_cases.
  destruct (has_rest row); [by intros [= <-]|]. cbn [bind].
  destruct (stats_rows float_of_str rows); [done|]. cbn [bind]. intros [= <-]. by apply IH.
Qed.

(** X9.  On any file, the stats pass returns one record for each line
    that is not blank when no line holds more cells than the header has
    names, and raises [AttributeError], returning nothing, as soon as one
    line does; it raises nothing else.  The bio pass returns one record
    for each line that is not blank whatever the lengths of the lines. *)
Theorem X9_passes_and_line_lengths (fieldnames : list string) (lines : list (list string)) :
  (Forall (fun line => length line <= length fieldnames) lines ->
   exists stats,
     make_stats_instances float_of_str (fieldnames :: lines) = Ok stats
     /\ length stats = length (filter (fun l => l <> []) lines))
  /\ (Exists (fun line => length fieldnames < length line) lines ->
      make_stats_instances float_of_str (fieldnames :: lines) = Raise AttributeError)
  /\ (forall e, make_stats_instances float_of_str (fieldnames :: lines) = Raise e ->
        e = AttributeError
        /\ Exists (fun line => length fieldnames < length line) lines)
  /\ length (make_bio_instances (fieldnames :: lines))
     = length (filter (fun l => l <> []) lines).
Proof.
  split; [apply stats_file_coerced|]. split; [|split].
  - intros (line & Hin & Hlong)%Exists_exists. by eapply stats_file_aborted.
  - intros e He. split; [by apply stats_rows_only_AttributeError in He|].
    destruct (decide (Forall (fun line => length line <= length fieldnames) lines))
      as [Hshort|Hlong].
    + destruct (stats_file_coerced float_of_str _ _ Hshort) as (stats & Hs & _).
      congruence.
    + apply not_Forall_Exists in Hlong; [|apply _].
      eapply Exists_impl; [exact Hlong|]. intros line Hl. simpl in Hl. lia.
  - unfold make_bio_instances. cbn [DictReader]. by rewrite !length_fmap.
Qed.

End StatsMore.

Section StatsInstances.
Import Py Csv Models Db_loader Spec Terms.

Lemma X7_witness :
  Inputs.stats_row ∈ DictReader Inputs.stats_csv
  /\ exists kw, stats_kw no_floats Inputs.stats_row = Ok kw
       /\ kw !! "G" = Some (VInt 3).
Proof.
  assert (Inputs.stats_row ∈ DictReader Inputs.stats_csv) as Hrow by (left).
  split; [done|].
  destruct (stats_kw no_floats Inputs.stats_row) as [kw|e] eqn:E; [|by vm_compute in E].
  exists kw. split; [done|].
  assert (Field "G" (Some "3") ∈ Inputs.stats_row) as Hin.
  { unfold Inputs.stats_row. rewrite !elem_of_cons. auto 10. }
  assert ("G" ∉ ["Number"; "FirstName"; "LastName"; "PN-PIM"; "PN_PIM"]) as Hkey.
  { refute_by_computation. }
  destruct (X7_stats_columns_under_their_headers no_floats _ _ _ _ _ Hrow E Hin Hkey)
    as [H _].
  rewrite H by by_computation. done.
Defined.

Lemma X8_witness :
  Inputs.stats_row ∈ DictReader Inputs.stats_csv
  /\ exists kw, stats_kw no_floats Inputs.stats_row = Ok kw
       /\ kw !! "FirstName" = Some (VStr "Jane") /\ kw !! "PN-PIM" = None.
Proof.
  assert (Inputs.stats_row ∈ DictReader Inputs.stats_csv) as Hrow by (left).
  split; [done|].
  pose proof (X8_stats_keywords no_floats _ _ Hrow) as H.
  destruct (stats_kw no_floats Inputs.stats_row) as [kw|e]; [|by destruct H].
  exists kw. destruct H as (_ & HF & _ & HP & _). by rewrite HF, HP.
Defined.

End StatsInstances.

(** ** What a commit needs, and what it leaves *)

Section PersistenceMore.
Import Py Csv Models Db_loader Spec Terms.
Context {float : Type} (float_of_str : string -> option float).

Lemma keys_free_cons {A} (key : A -> string * string) (r : A) (rs : list A)
    (t : gmap (string * string) A) :
  keys_free key (r :: rs) t
  <-> t !! key r = None /\ keys_free key rs (<[key r := r]> t).
Proof.
  unfold keys_free. rewrite fmap_cons, NoDup_cons, Forall_cons. split.
  - intros [[Hnot Hnd] [Hr Hrs]]. split; [done|]. split; [done|].
    apply Forall_forall. intros r' Hin. rewrite lookup_insert_ne.
    + rewrite Forall_forall in Hrs. by apply Hrs.
    + intros Heq. apply Hnot. rewrite Heq. by apply list_elem_of_fmap_2.
  - intros [Hr [Hnd Hrs]]. split; split; try done.
    + intros (r' & Heq & Hin)%list_elem_of_fmap.
      rewrite Forall_forall in Hrs. specialize (Hrs r' Hin). simpl in Hrs.
      rewrite <- Heq in Hrs. by rewrite lookup_insert_eq in Hrs.
    + eapply Forall_impl; [exact Hrs|]. intros r' H. simpl in H.
      by apply lookup_insert_None in H as [? _].
Qed.

Lemma with_records_cons {A} (key : A -> string * string) (r : A) (rs : list A)
    (t : gmap (string * string) A) :
  key r ∉ key <$> rs ->
  with_records key rs (<[key r := r]> t) = with_records key (r :: rs) t.
Proof.
  intros Hnot. unfold with_records. rewrite fmap_cons. cbn [list_to_map foldr].
  rewrite <- insert_union_l. symmetry. apply insert_union_r.
  apply not_elem_of_list_to_map_1. by rewrite <- list_fmap_compose.
Qed.

Lemma fits_int64_spec z : fits_int64 z = true <-> in_int64 z.
Proof.
  unfold fits_int64, in_int64. by rewrite andb_true_iff, Z.leb_le, Z.ltb_lt.
Qed.

Lemma bindable_bio (b : Bio) : bindable (float := float) (BioObj b) = true <-> bio_fits b.
Proof.
  unfold bio_fits. simpl. destruct (Number b) as [z|].
  - rewrite fits_int64_spec. split; [by intros H ? [= <-]|auto].
  - split; [done|auto].
Qed.

Lemma bindable_stats (r : gmap string (value float)) :
  bindable (StatsObj r) = true <-> stats_fits r.
Proof.
  unfold stats_fits. simpl. rewrite forallb_forall. split.
  - intros H k z Hk. apply fits_int64_spec.
    apply (H (k, VInt z)), list_elem_of_In. by apply elem_of_map_to_list.
  - intros H [k v] Hin%list_elem_of_In%elem_of_map_to_list.
    destruct v as [|z|?|?]; try done. simpl. apply fits_int64_spec. by eapply H.
Qed.

Lemma flush_raises (db : Database float) batch e :
  flush db batch = Raise e -> e = IntegrityError \/ e = OverflowError.
Proof.
  revert db. induction batch as [|o batch IH]; intros db; [done|].
  cbn [flush]. destruct (insert db o) as [db1|e1] eqn:Ho; cbn [bind]; [by apply IH|].
  intros [= <-]. revert Ho. unfold insert. destruct (bindable o); [|by right; injection Ho as <-].
  destruct o as [b|r]; simpl.
  - destruct (bio db !! _); [|done]. intros [= <-]. by left.
  - destruct (stats db !! _); [|done]. intros [= <-]. by left.
Qed.

Lemma flush_bios_free (db : Database float) bios :
  keys_free bio_key bios (bio db) -> Forall bio_fits bios ->
  flush db (BioObj <$> bios)
  = Ok {| bio := with_records bio_key bios (bio db); stats := stats db |}.
Proof.
  revert db. induction bios as [|b bios IH]; intros db.
  - intros _ _. unfold with_records. simpl. rewrite (left_id ∅ (∪)). by destruct db.
  - intros Hfree [Hb' Hfits]%Forall_cons.
    pose proof Hfree as [[Hnot _]%NoDup_cons _].
    apply keys_free_cons in Hfree as [Hb Hfree]. apply bindable_bio in Hb'.
    rewrite fmap_cons. cbn [flush]. unfold insert at 1. rewrite Hb'.
    fold (bio_key b). rewrite Hb. cbn [bind].
    rewrite IH by done. cbn [bio stats]. by rewrite with_records_cons.
Qed.

Lemma flush_bios_Ok (db db' : Database float) bios :
  flush db (BioObj <$> bios) = Ok db' ->
  keys_free bio_key bios (bio db) /\ Forall bio_fits bios.
Proof.
  revert db. induction bios as [|b bios IH]; intros db.
  - intros _. split; [split|]; constructor.
  - rewrite fmap_cons. cbn [flush]. unfold insert at 1.
    destruct (bindable (BioObj b)) eqn:Hb'; [|done]. apply bindable_bio in Hb'.
    fold (bio_key b). destruct (bio db !! bio_key b) eqn:Hb; [done|]. cbn [bind].
    intros [Hfree Hfits]%IH. split; [|by constructor].
    by apply keys_free_cons.
Qed.

Lemma flush_bios_taken (db : Database float) bios :
  ¬ keys_free bio_key bios (bio db) -> Forall bio_fits bios ->
  flush db (BioObj <$> bios) = Raise IntegrityError.
Proof.
  revert db. induction bios as [|b bios IH]; intros db Hnot.
  - destruct Hnot. split; [constructor|constructor].
  - intros [Hb' Hfits]%Forall_cons. apply bindable_bio in Hb'.
    rewrite fmap_cons. cbn [flush]. unfold insert at 1. rewrite Hb'.
    fold (bio_key b). destruct (bio db !! bio_key b) eqn:Hb; [done|]. cbn [bind].
    apply IH; [|done]. cbn [bio]. intros Hfree. apply Hnot. by apply keys_free_cons.
Qed.

Lemma flush_bios_overflow (db : Database float) bios :
  keys_free bio_key bios (bio db) -> ¬ Forall bio_fits bios ->
  flush db (BioObj <$> bios) = Raise OverflowError.
Proof.
  revert db. induction bios as [|b bios IH]; intros db Hfree Hnot.
  - destruct Hnot. constructor.
  - apply keys_free_cons in Hfree as [Hb Hfree].
    rewrite fmap_cons. cbn [flush]. unfold insert at 1.
    destruct (bindable (BioObj b)) eqn:Hb'; [|done]. apply bindable_bio in Hb'.
    fold (bio_key b). rewrite Hb. cbn [bind].
    apply IH; [done|]. intros Hfits. apply Hnot. by constructor.
Qed.

Lemma flush_stats_free (db : Database float) rows :
  keys_free stats_key rows (stats db) -> Forall stats_fits rows ->
  flush db (StatsObj <$> rows)
  = Ok {| bio := bio db; stats := with_records stats_key rows (stats db) |}.
Proof.
  revert db. induction rows as [|r rows IH]; intros db.
  - intros _ _. unfold with_records. simpl. rewrite (left_id ∅ (∪)). by destruct db.
  - intros Hfree [Hr' Hfits]%Forall_cons.
    pose proof Hfree as [[Hnot _]%NoDup_cons _].
    apply keys_free_cons in Hfree as [Hr Hfree]. apply bindable_stats in Hr'.
    rewrite fmap_cons. cbn [flush]. unfold insert at 1. rewrite Hr'.
    fold (stats_key r). rewrite Hr. cbn [bind].
    rewrite IH by done. cbn [bio stats]. by rewrite with_records_cons.
Qed.

Lemma flush_stats_Ok (db db' : Database float) rows :
  flush db (StatsObj <$> rows) = Ok db' ->
  keys_free stats_key rows (stats db) /\ Forall stats_fits rows.
Proof.
  revert db. induction rows as [|r rows IH]; intros db.
  - intros _. split; [split|]; constructor.
  - rewrite fmap_cons. cbn [flush]. unfold insert at 1.
    destruct (bindable (StatsObj r)) eqn:Hr'; [|done]. apply bindable_stats in Hr'.
    fold (stats_key r). destruct (stats db !! stats_key r) eqn:Hr; [done|]. cbn [bind].
    intros [Hfree Hfits]%IH. split; [|by constructor].
    by apply keys_free_cons.
Qed.

Lemma flush_stats_taken (db : Database float) rows :
  ¬ keys_free stats_key rows (stats db) -> Forall stats_fits rows ->
  flush db (StatsObj <$> rows) = Raise IntegrityError.
Proof.
  revert db. induction rows as [|r rows IH]; intros db Hnot.
  - destruct Hnot. split; [constructor|constructor].
  - intros [Hr' Hfits]%Forall_cons. apply bindable_stats in Hr'.
    rewrite fmap_cons. cbn [flush]. unfold insert at 1. rewrite Hr'.
    fold (stats_key r). destruct (stats db !! stats_key r) eqn:Hr; [done|]. cbn [bind].
    apply IH; [|done]. cbn [stats]. intros Hfree. apply Hnot. by apply keys_free_cons.
Qed.

Lemma flush_stats_overflow (db : Database float) rows :
  keys_free stats_key rows (stats db) -> ¬ Forall stats_fits rows ->
  flush db (StatsObj <$> rows) = Raise OverflowError.
Proof.
  revert db. induction rows as [|r rows IH]; intros db Hfree Hnot.
  - destruct Hnot. constructor.
  - apply keys_free_cons in Hfree as [Hr Hfree].
    rewrite fmap_cons. cbn [flush]. unfold insert at 1.
    destruct (bindable (StatsObj r)) eqn:Hr'; [|done]. apply bindable_stats in Hr'.
    fold (stats_key r). rewrite Hr. cbn [bind].
    apply IH; [done|]. intros Hfits. apply Hnot. by constructor.
Qed.

(** X10.  [load_bios] commits exactly when the (FirstName, LastName) keys
    of the records it built are pairwise distinct, none is in the bio table
    yet, and every jersey number is an integer SQLite can hold (64 bits,
    signed).  Then the bio table is the old one with every record added
    under its key and the stats table is as before.  Otherwise the call
    raises and the database is as before: [IntegrityError] when only the
    keys are at fault, [OverflowError] when only a number is, one of the
    two when both are. *)
Theorem X10_load_bios_commits_iff_keys_free
    (db : Database float) (csv_file : list (list string)) :
  (keys_free bio_key (make_bio_instances csv_file) (bio db) ->
   Forall bio_fits (make_bio_instances csv_file) ->
   load_bios db csv_file
   = ({| bio := with_records bio_key (make_bio_instances csv_file) (bio db);
         stats := stats db |},
      Ok (make_bio_instances csv_file)))
  /\ (¬ keys_free bio_key (make_bio_instances csv_file) (bio db) ->
      Forall bio_fits (make_bio_instances csv_file) ->
      load_bios db csv_file = (db, Raise IntegrityError))
  /\ (keys_free bio_key (make_bio_instances csv_file) (bio db) ->
      ¬ Forall bio_fits (make_bio_instances csv_file) ->
      load_bios db csv_file = (db, Raise OverflowError))
  /\ match load_bios db csv_file with
     | (_, Ok _) =>
         keys_free bio_key (make_bio_instances csv_file) (bio db)
         /\ Forall bio_fits (make_bio_instances csv_file)
     | (db', Raise e) => db' = db /\ (e = IntegrityError \/ e = OverflowError)
     end.
Proof.
  rewrite load_bios_cases. split; [|split; [|split]].
  - intros Hfree Hfits. by rewrite flush_bios_free.
  - intros Hfree Hfits. by rewrite flush_bios_taken.
  - intros Hfree Hfits. by rewrite flush_bios_overflow.
  - destruct (flush db (BioObj <$> make_bio_instances csv_file)) as [db'|e] eqn:E.
    + by eapply flush_bios_Ok.
    + split; [done|]. by eapply flush_raises.
Qed.

(** X11.  [load_stats], when every row coerces, commits exactly when the
    (FirstName, LastName) keys of the records are pairwise distinct, none
    is in the stats table yet, and every integer of the records is one
    SQLite can hold (64 bits, signed).  Then the stats table is the old one
    with every record added under its key and the bio table is as before,
    whether or not it holds a player of that name.  Otherwise the call
    raises and the database is as before: [IntegrityError] when only the
    keys are at fault, [OverflowError] when only an integer is, one of the
    two when both are.  When a row does not coerce the call raises what
    the row raised and the database is as before. *)
Theorem X11_load_stats_commits_iff_keys_free
    (db : Database float) (csv_file : list (list string)) :
  match make_stats_instances float_of_str csv_file with
  | Ok rows =>
      (keys_free stats_key rows (stats db) -> Forall stats_fits rows ->
       load_stats float_of_str db csv_file
       = ({| bio := bio db; stats := with_records stats_key rows (stats db) |},
          Ok rows))
      /\ (¬ keys_free stats_key rows (stats db) -> Forall stats_fits rows ->
          load_stats float_of_str db csv_file = (db, Raise IntegrityError))
      /\ (keys_free stats_key rows (stats db) -> ¬ Forall stats_fits rows ->
          load_stats float_of_str db csv_file = (db, Raise OverflowError))
      /\ match load_stats float_of_str db csv_file with
         | (_, Ok _) => keys_free stats_key rows (stats db) /\ Forall stats_fits rows
         | (db', Raise e) => db' = db /\ (e = IntegrityError \/ e = OverflowError)
         end
  | Raise e => load_stats float_of_str db csv_file = (db, Raise e)
  end.
Proof.
  rewrite load_stats_cases.
  destruct (make_stats_instances float_of_str csv_file) as [rows|e]; [|done].
  split; [|split; [|split]].
  - intros Hfree Hfits. by rewrite flush_stats_free.
  - intros Hfree Hfits. by rewrite flush_stats_taken.
  - intros Hfree Hfits. by rewrite flush_stats_overflow.
  - destruct (flush db (StatsObj <$> rows)) as [db'|e] eqn:E.
    + by eapply flush_stats_Ok.
    + split; [done|]. by eapply flush_raises.
Qed.

Lemma flush_stored (db : Database float) o batch :
  bindable o = true -> stored db o -> flush db (o :: batch) = Raise IntegrityError.
Proof.
  intros Hfits H. cbn [flush]. unfold insert. rewrite Hfits.
  destruct o as [b|r]; simpl in *; by rewrite H.
Qed.

(** X12.  Running [init.py] a second time on the same two files, after a
    run that ended without an exception and stored at least one record,
    raises [IntegrityError] and leaves the database as the first run left
    it. *)
Theorem X12_second_run_of_init_fails
    (db db' : Database float) (bio_csv stats_csv : list (list string)) :
  init float_of_str db bio_csv stats_csv = (db', Ok tt) ->
  make_bio_instances bio_csv ≠ []
    \/ make_stats_instances float_of_str stats_csv ≠ Ok [] ->
  init float_of_str db' bio_csv stats_csv = (db', Raise IntegrityError).
Proof.
  rewrite !init_cases. intros Hrun Hsome.
  destruct (flush db (BioObj <$> make_bio_instances bio_csv)) as [db1|] eqn:Hbios; [|done].
  destruct (make_stats_instances float_of_str stats_csv) as [rows|] eqn:Hrows; [|done].
  destruct (flush db1 (StatsObj <$> rows)) as [db2|] eqn:Hstats; [|done].
  injection Hrun as ->.
  pose proof (flush_Ok_bindable _ _ _ Hbios) as Hb'.
  pose proof (flush_Ok_bindable _ _ _ Hstats) as Hs'.
  apply flush_Ok in Hbios as [Hb _]. apply flush_Ok in Hstats as [Hs Hkeeps].
  destruct (make_bio_instances bio_csv) as [|b bios].
  - destruct rows as [|r rows]; [by destruct Hsome|].
    rewrite fmap_nil. cbn [flush bind].
    rewrite fmap_cons in Hs, Hs'.
    apply Forall_cons in Hs as [Hs _]. apply Forall_cons in Hs' as [Hs' _].
    rewrite fmap_cons. by rewrite flush_stored.
  - rewrite fmap_cons in Hb, Hb'.
    apply Forall_cons in Hb as [Hb _]. apply Forall_cons in Hb' as [Hb' _].
    rewrite fmap_cons. rewrite flush_stored; [done..|]. by eapply stored_keeps.
Qed.

(** X13.  The body of [init.py] does what [load_bios] followed, when it
    returns, by [load_stats] do: the same database is left and the same
    exception, if any, is raised. *)
Theorem X13_init_is_load_bios_then_load_stats
    (db : Database float) (bio_csv stats_csv : list (list string)) :
  init float_of_str db bio_csv stats_csv
  = match load_bios db bio_csv with
    | (db1, Ok _) =>
        match load_stats float_of_str db1 stats_csv with
        | (db2, Ok _) => (db2, Ok tt)
        | (db2, Raise e) => (db2, Raise e)
        end
    | (db1, Raise e) => (db1, Raise e)
    end.
Proof.
  rewrite init_cases, load_bios_cases.
  destruct (flush db (BioObj <$> make_bio_instances bio_csv)) as [db1|]; [|done].
  rewrite load_stats_cases.
  destruct (make_stats_instances float_of_str stats_csv) as [rows|]; [|done].
  by destruct (flush db1 (StatsObj <$> rows)).
Qed.

End PersistenceMore.

Section PersistenceInstances.
Import Py Csv Models Db_loader Spec Terms.

Lemma X12_witness :
  init no_floats (init no_floats empty_db Inputs.bio_csv Inputs.stats_csv).1
    Inputs.bio_csv Inputs.stats_csv
  = ((init no_floats empty_db Inputs.bio_csv Inputs.stats_csv).1,
     Raise IntegrityError).
Proof.
  apply (X12_second_run_of_init_fails no_floats empty_db).
  - apply injective_projections; [reflexivity|]. vm_compute. reflexivity.
  - left. intros H. vm_compute in H. discriminate H.
Defined.

End PersistenceInstances.
